(** * Hass.io add-on ingress: a shallow embedding of
      [homeassistant/components/hassio/ingress.py]

    The development follows the Python module function by function.
    - Header collections of the web framework ([request.headers],
      [response.headers]) are case-insensitive multi-dicts: ordered lists
      of (name, value) pairs whose [get] and [in] compare names without
      regard to case and return the first match, and whose [items()] hands
      out the names as they were received.
    - [headers = {}] is a plain Python dict: a finite map keyed by the exact
      string ([gmap string string]).
    - Exceptions are values of [Result]; what the handler writes to the
      caller before it returns is the event log of the [IO] monad. *)

From Stdlib Require Import ZArith Ascii String List.
From stdpp Require Import base option list strings gmap.

Open Scope Z_scope.
Open Scope string_scope.

(** ** Python built-ins used by the module *)
Module Py.

(** Exceptions the module can meet. [ClientError] is aiohttp's base class;
    [ClientConnectionError], [ClientPayloadError] and [ClientResponseError]
    derive from it. [ValueError] is what [int] and [ip_address] raise;
    [IndexError], [TypeError] and [AttributeError] are what indexing an
    empty string, indexing [None] and reading an attribute of [None]
    raise. [TimeoutError] is [asyncio.TimeoutError]. [HTTPBadGateway] and
    [HTTPBadRequest] are the web exceptions with status 502 and 400. *)
Inductive Exception :=
| ClientError
| ClientConnectionError
| ClientPayloadError
| ClientResponseError
| ValueError
| IndexError
| TypeError
| AttributeError
| TimeoutError
| HTTPBadGateway
| HTTPBadRequest.

#[global] Instance Exception_eq_dec : EqDecision Exception.
Proof. solve_decision. Defined.

(** [isinstance(e, aiohttp.ClientError)]. *)
Definition is_ClientError (e : Exception) : bool :=
  match e with
  | ClientError | ClientConnectionError | ClientPayloadError
  | ClientResponseError => true
  | _ => false
  end.

(** [isinstance(e, aiohttp.ClientPayloadError)]. *)
Definition is_ClientPayloadError (e : Exception) : bool :=
  match e with
  | ClientPayloadError => true
  | _ => false
  end.

(** [HTTPException.status_code], for the web exceptions. *)
Definition status_code (e : Exception) : option Z :=
  match e with
  | HTTPBadGateway => Some 502
  | HTTPBadRequest => Some 400
  | _ => None
  end.

Inductive Result (A : Type) :=
| Return (a : A)
| Raise (e : Exception).
Arguments Return {A} a.
Arguments Raise {A} e.

#[global] Instance Result_ret : MRet Result := @Return.
#[global] Instance Result_bind : MBind Result := fun A B f r =>
  match r with
  | Return a => f a
  | Raise e => Raise e
  end.

(** Truth value of an optional string: [None] and [""] are falsy. *)
Definition truthy (o : option string) : bool :=
  match o with
  | Some (String _ _) => true
  | _ => false
  end.

(** [str.lower] on the ASCII range (header names are ASCII tokens). *)
Definition ascii_lower (c : ascii) : ascii :=
  let n := N_of_ascii c in
  if ((65 <=? n) && (n <=? 90))%N then ascii_of_N (n + 32) else c.

Fixpoint lower (s : string) : string :=
  match s with
  | EmptyString => EmptyString
  | String c s' => String (ascii_lower c) (lower s')
  end.

(** ASCII white space as [int] strips it: TAB..CR and space. *)
Definition is_space (c : ascii) : bool :=
  let n := N_of_ascii c in
  ((9 <=? n) && (n <=? 13) || (n =? 32))%N.

Definition digit_of (c : ascii) : option Z :=
  let n := N_of_ascii c in
  if ((48 <=? n) && (n <=? 57))%N then Some (Z.of_N n - 48) else None.

Fixpoint all_space (s : string) : bool :=
  match s with
  | EmptyString => true
  | String c s' => is_space c && all_space s'
  end.

(** Digits of a base-10 literal, most significant first. A single
    underscore may sit between two digits; after the last digit only
    white space may follow. [prev] says that the previous character was a
    digit. *)
Fixpoint int_digits (s : string) (acc : Z) (prev : bool) : option Z :=
  match s with
  | EmptyString => if prev then Some acc else None
  | String c s' =>
      match digit_of c with
      | Some d => int_digits s' (10 * acc + d) true
      | None =>
          if negb prev then None
          else if Ascii.eqb c "_" then int_digits s' acc false
          else if all_space s then Some acc
          else None
      end
  end.

Definition int_signed (s : string) : option Z :=
  match s with
  | String "-" s' => Z.opp <$> int_digits s' 0 false
  | String "+" s' => int_digits s' 0 false
  | _ => int_digits s 0 false
  end.

Fixpoint lstrip (s : string) : string :=
  match s with
  | String c s' => if is_space c then lstrip s' else s
  | EmptyString => EmptyString
  end.

(** [int(s)] for a string [s] of ASCII characters: [None] stands for
    [ValueError]. *)
Definition int (s : string) : option Z := int_signed (lstrip s).

(** [int(x)] where [x] is what [headers.get(name, 0)] returned: the
    string found, or the integer default [0]. *)
Definition int_or_zero (o : option string) : Result Z :=
  match o with
  | None => Return 0
  | Some s =>
      match int s with
      | Some n => Return n
      | None => Raise ValueError
      end
  end.

End Py.
Export Py.

(** ** [multidict.CIMultiDict] and the [aiohttp.hdrs] names *)
Module hdrs.
Definition CONNECTION := "Connection".
Definition CONTENT_LENGTH := "Content-Length".
Definition CONTENT_TYPE := "Content-Type".
Definition TRANSFER_ENCODING := "Transfer-Encoding".
Definition UPGRADE := "Upgrade".
Definition X_FORWARDED_FOR := "X-Forwarded-For".
Definition X_FORWARDED_HOST := "X-Forwarded-Host".
Definition X_FORWARDED_PROTO := "X-Forwarded-Proto".
End hdrs.

Module CIMultiDict.

(** The pairs in arrival order, names in the case they arrived in. *)
Definition t := list (string * string).

Definition items (d : t) : list (string * string) := d.

(** Same header name up to case. *)
Definition same_name (a b : string) : bool :=
  bool_decide (lower a = lower b).

(** [d.get(key)]: the first value stored under [key], case-insensitive. *)
Fixpoint get (key : string) (d : t) : option string :=
  match d with
  | [] => None
  | (name, value) :: d' =>
      if same_name name key then Some value else get key d'
  end.

(** [key in d]. *)
Definition contains (key : string) (d : t) : bool :=
  bool_decide (is_Some (get key d)).

End CIMultiDict.

(** [name in (a, b, ...)]: tuple membership compares with [==], which on
    [str] (and on [istr], a [str] subclass that does not override it) is
    exact, case-sensitive equality. *)
Definition in_tuple (name : string) (names : list string) : bool :=
  bool_decide (name ∈ names).

(** The last value a pair list carries under exactly the name [name]. *)
Fixpoint last_value (name : string) (l : list (string * string))
    : option string :=
  match l with
  | [] => None
  | (n, v) :: l' =>
      match last_value name l' with
      | Some v' => Some v'
      | None => if bool_decide (n = name) then Some v else None
      end
  end.

(** ** The aiohttp objects the handler touches *)
Definition bytes := list Byte.byte.

(** A plain [dict] of header names to values. *)
Abbreviation dict := (gmap string string).

Module web.

(** What [request.transport.get_extra_info('peername')[0]] meets. *)
Inductive Peername :=
| Address (ip : string)
    (* the peer name starts with an IP address; [ip] is the address as
       [str(ip_address(...))] prints it *)
| NotAnAddress
    (* the peer name starts with something [ip_address] rejects *)
| EmptyPeername
    (* the peer name is the empty string of an unnamed Unix socket *)
| NoPeername
    (* [get_extra_info] returns [None] *)
| NoTransport.
    (* [request.transport] is [None]: the connection is gone *)

(** The inbound [web.Request], reduced to what the module reads.
    [query] is the parsed form of [query_string] the framework offers
    next to it. [prepare_error] is what [WebSocketResponse.prepare] raises
    for this request, if anything: the framework checks the
    Sec-WebSocket-Version and Sec-WebSocket-Key headers there and answers
    a request that fails the check with [HTTPBadRequest]. *)
Record Request := {
  method : string;
  headers : CIMultiDict.t;
  query_string : string;
  query : list (string * string);
  body : bytes;
  cookies : list (string * string);
  host : string;
  scheme : string;
  peername : Peername;
  prepare_error : option Exception;
}.

(** [str(ip_address(request.transport.get_extra_info('peername')[0]))]
    where that expression has a value. *)
Definition connected_ip (request : Request) : option string :=
  match peername request with
  | Address ip => Some ip
  | _ => None
  end.

(** What [_handle] hands back to the framework. *)
Inductive Reply :=
| Response (headers : dict) (status : Z) (body : bytes)
| StreamResponse (status : Z) (headers : dict) (content_type : string)
| WebSocketResponse.

(** What has been written to the caller while the handler ran:
    [response.prepare] of a streamed reply, each [response.write], the
    [prepare] of the WebSocket handshake, and [Relayed] for whatever the
    two relay tasks sent until [asyncio.wait] returned, which is not
    itemised here. *)
Inductive Event :=
| Prepared (status : Z) (headers : dict) (content_type : string)
| Wrote (data : bytes)
| WsPrepared
| Relayed.

End web.

Module aiohttp.

(** The call [websession.request(method, url, headers=, params=, data=,
    cookies=)]. *)
Record ClientRequest := {
  method : string;
  url : string;
  headers : dict;
  params : list (string * string);
  data : bytes;
  cookies : list (string * string);
}.

(** A backend response. [content] are the chunks the body stream yields;
    [content_error], when set, is raised by the stream after them. *)
Record ClientResponse := {
  status : Z;
  resp_headers : CIMultiDict.t;
  content_type : string;
  content : list bytes;
  content_error : option Exception;
}.

(** [await result.read()]. *)
Definition read (result : ClientResponse) : Result bytes :=
  match content_error result with
  | Some e => Raise e
  | None => Return (concat (content result))
  end.

Inductive WSMsgType :=
| CONTINUATION | TEXT | BINARY | PING | PONG
| CLOSE | CLOSING | CLOSED | ERROR.

#[global] Instance WSMsgType_eq_dec : EqDecision WSMsgType.
Proof. solve_decision. Defined.

Inductive WSData :=
| Str (s : string)
| Bytes (b : bytes)
| Code (code : Z)
| NoData.

Record WSMessage := {
  type : WSMsgType;
  msg_data : WSData;
  extra : option string;
}.

(** The backend connection an ingress view owns. Both calls answer with
    a result or raise. [ws_connect] answers with the frames the backend
    socket is going to deliver. *)
Record ClientSession := {
  request : ClientRequest → Result ClientResponse;
  ws_connect : string → dict → Result (list WSMessage);
}.

End aiohttp.

(** ** The client's reading of a response head

    Before [websession.request] hands [result] out, aiohttp reads the head
    of the backend's answer. A head its parser refuses, such as one with a
    malformed Content-Length, ends the call in [ClientResponseError]
    instead. [accepts] is the parser's test of a Content-Length value. *)
Definition client_receive (accepts : string → bool)
    (sent : aiohttp.ClientResponse) : Result aiohttp.ClientResponse :=
  match CIMultiDict.get hdrs.CONTENT_LENGTH (aiohttp.resp_headers sent) with
  | Some v => if accepts v then Return sent else Raise ClientResponseError
  | None => Return sent
  end.

(** A session over a backend: what the backend sends reaches the handler
    through the client's reading of the head. *)
Definition client_session (accepts : string → bool)
    (backend : aiohttp.ClientRequest → Result aiohttp.ClientResponse)
    (ws_backend : string → dict → Result (list aiohttp.WSMessage))
    : aiohttp.ClientSession :=
  {| aiohttp.request := λ call, sent ← backend call;
                                client_receive accepts sent;
     aiohttp.ws_connect := ws_backend |}.

Fixpoint all_digits (s : string) : bool :=
  match s with
  | EmptyString => true
  | String c s' => bool_decide (is_Some (digit_of c)) && all_digits s'
  end.

(** The test of a parser that takes a Content-Length of one or more ASCII
    digits and nothing else. *)
Definition digits_only (v : string) : bool :=
  match v with
  | EmptyString => false
  | String _ _ => all_digits v
  end.

(** ** The handler's effects: a result or an exception, and the events
    written to the caller so far *)
Definition IO (A : Type) : Type := Result A * list web.Event.

#[global] Instance IO_ret : MRet IO := fun A a => (Return a, []).
#[global] Instance IO_bind : MBind IO := fun A B f m =>
  match m with
  | (Return a, w) => let '(r, w') := f a in (r, (w ++ w')%list)
  | (Raise e, w) => (Raise e, w)
  end.

(** A pure, possibly raising, computation inside the handler. *)
Definition lift {A} (r : Result A) : IO A := (r, []).

Definition emit (ev : web.Event) : IO unit := (Return tt, [ev]).

(** [try: m  except <classes>: pass]. *)
Definition try_except_pass (m : IO unit) (caught : Exception → bool)
    : IO unit :=
  match m with
  | (Raise e, w) => if caught e then (Return tt, w) else (Raise e, w)
  | ok => ok
  end.

(** [for data in chunks: await response.write(data)]. *)
Fixpoint write_all (chunks : list bytes) : IO unit :=
  match chunks with
  | [] => mret tt
  | data :: rest => _ ← emit (web.Wrote data); write_all rest
  end.

(** The loop shared by both header transforms:
    [for name, value in items: if name in excluded: continue;
     headers[name] = value], started from [headers = {}]. *)
Definition copy_headers (excluded : list string)
    (items : list (string * string)) : dict :=
  foldl (λ (headers : dict) '(name, value),
           if in_tuple name excluded then headers
           else <[name := value]> headers)
        ∅ items.

(** [if not x: x = fallback]. *)
Definition or_else (x : option string) (fallback : string) : string :=
  if truthy x then default "" x else fallback.

(** ** The ingress view *)
Section ingress.

(** [from .const import X_HASSIO, X_INGRESS_PATH]: the names of the
    trust-token header and of the ingress-path header. *)
Variables X_HASSIO X_INGRESS_PATH : string.

(** [os.environ]. *)
Variable environ : gmap string string.

Record HassIOIngress := {
  _host : string;
  _websession : aiohttp.ClientSession;
}.

Definition _create_url (self : HassIOIngress) (addon path : string)
    : string :=
  "http://" +:+ _host self +:+ "/addons/" +:+ addon +:+ "/web/" +:+ path.

(** [ip_address(request.transport.get_extra_info('peername')[0])],
    formatted with [!s]. *)
Definition ip_address (request : web.Request) : Result string :=
  match web.peername request with
  | web.Address ip => Return ip
  | web.NotAnAddress => Raise ValueError
  | web.EmptyPeername => Raise IndexError
  | web.NoPeername => Raise TypeError
  | web.NoTransport => Raise AttributeError
  end.

Definition _init_header (request : web.Request) (addon : string)
    : Result dict :=
  (* filter flags *)
  let headers :=
    copy_headers [hdrs.CONTENT_LENGTH; hdrs.CONTENT_TYPE]
                 (CIMultiDict.items (web.headers request)) in
  (* Inject token *)
  let headers :=
    <[X_HASSIO := default "" (environ !! "HASSIO_TOKEN")]> headers in
  (* Ingress information *)
  let headers :=
    <[X_INGRESS_PATH := "/api/hassio_ingress/" +:+ addon]> headers in
  (* Set X-Forwarded-For *)
  let forward_for :=
    CIMultiDict.get hdrs.X_FORWARDED_FOR (web.headers request) in
  connected_ip ← ip_address request;
  let forward_for :=
    if truthy forward_for
    then default "" forward_for +:+ ", " +:+ connected_ip
    else connected_ip in
  let headers := <[hdrs.X_FORWARDED_FOR := forward_for]> headers in
  (* Set X-Forwarded-Host *)
  let forward_host :=
    or_else (CIMultiDict.get hdrs.X_FORWARDED_HOST (web.headers request))
            (web.host request) in
  let headers := <[hdrs.X_FORWARDED_HOST := forward_host]> headers in
  (* Set X-Forwarded-Proto *)
  let forward_proto :=
    or_else (CIMultiDict.get hdrs.X_FORWARDED_PROTO (web.headers request))
            (web.scheme request) in
  let headers := <[hdrs.X_FORWARDED_PROTO := forward_proto]> headers in
  mret headers.

Definition _response_header (response : aiohttp.ClientResponse) : dict :=
  copy_headers
    [hdrs.TRANSFER_ENCODING; hdrs.CONTENT_LENGTH; hdrs.CONTENT_TYPE]
    (CIMultiDict.items (aiohttp.resp_headers response)).

Definition _is_websocket (request : web.Request) : bool :=
  let headers := web.headers request in
  if bool_decide (CIMultiDict.get hdrs.CONNECTION headers = Some "Upgrade")
     && bool_decide (CIMultiDict.get hdrs.UPGRADE headers = Some "websocket")
  then true
  else false.

(** The URL [_handle_websocket] connects to. *)
Definition websocket_url (self : HassIOIngress) (request : web.Request)
    (addon path : string) : string :=
  let url := _create_url self addon path in
  (* Support GET query *)
  if truthy (Some (web.query_string request))
  then url +:+ "?" +:+ web.query_string request
  else url.

(** [await ws_server.prepare(request)]: the handshake with the caller, or
    the exception the framework raises instead. *)
Definition prepare (request : web.Request) : IO unit :=
  match web.prepare_error request with
  | Some e => lift (Raise e)
  | None => emit web.WsPrepared
  end.

(** The two relay loops run as tasks under [asyncio.wait], which keeps
    what they raise inside them: once the backend socket is open the
    function returns [ws_server] whatever the relay did. What the tasks
    send in the meantime is the one event [Relayed]; the loop either task
    runs is [_websocket_forward] below. *)
Definition _handle_websocket (self : HassIOIngress)
    (request : web.Request) (addon path : string) : IO web.Reply :=
  _ ← prepare request;
  (* Preparing *)
  source_header ← lift (_init_header request addon);
  let url := websocket_url self request addon path in
  (* Start proxy *)
  _ ← lift (aiohttp.ws_connect (_websession self) url source_header);
  (* Proxy requests *)
  _ ← emit web.Relayed;
  mret web.WebSocketResponse.

(** The backend call of [_handle_request]. *)
Definition backend_request (self : HassIOIngress) (request : web.Request)
    (addon path : string) (source_header : dict) : aiohttp.ClientRequest :=
  {| aiohttp.method := web.method request;
     aiohttp.url := _create_url self addon path;
     aiohttp.headers := source_header;
     aiohttp.params := web.query request;
     aiohttp.data := web.body request;
     aiohttp.cookies := web.cookies request |}.

(** The test of the "Simple request" branch:
    [hdrs.CONTENT_LENGTH in result.headers and
     int(result.headers.get(hdrs.CONTENT_LENGTH, 0)) < 4194000]. *)
Definition simple_request (result : aiohttp.ClientResponse) : Result bool :=
  let headers := aiohttp.resp_headers result in
  if CIMultiDict.contains hdrs.CONTENT_LENGTH headers
  then n ← int_or_zero (CIMultiDict.get hdrs.CONTENT_LENGTH headers);
       mret (bool_decide (n < 4194000)%Z)
  else mret false.

(** [async for data in result.content: await response.write(data)]. *)
Definition relay_content (result : aiohttp.ClientResponse) : IO unit :=
  _ ← write_all (aiohttp.content result);
  match aiohttp.content_error result with
  | Some e => lift (Raise e)
  | None => mret tt
  end.

(** The body of [async with self._websession.request(...) as result]. *)
Definition relay_response (result : aiohttp.ClientResponse) : IO web.Reply :=
  let headers := _response_header result in
  simple ← lift (simple_request result);
  if (simple : bool) then
    (* Return Response *)
    body ← lift (aiohttp.read result);
    mret (web.Response headers (aiohttp.status result) body)
  else
    (* Stream response *)
    let status := aiohttp.status result in
    let content_type := aiohttp.content_type result in
    _ ← try_except_pass
          (_ ← emit (web.Prepared status headers content_type);
           relay_content result)
          (λ e, is_ClientError e || is_ClientPayloadError e);
    mret (web.StreamResponse status headers content_type).

Definition _handle_request (self : HassIOIngress)
    (request : web.Request) (addon path : string) : IO web.Reply :=
  source_header ← lift (_init_header request addon);
  result ← lift (aiohttp.request (_websession self)
                   (backend_request self request addon path source_header));
  relay_response result.

Definition _handle (self : HassIOIngress)
    (request : web.Request) (addon path : string) : IO web.Reply :=
  let attempt :=
    if _is_websocket request
    then _handle_websocket self request addon path
    else _handle_request self request addon path in
  match attempt with
  | (Raise e, w) =>
      if is_ClientError e then (Raise HTTPBadGateway, w) else (Raise e, w)
  | finished => finished
  end.

End ingress.

(** ** The WebSocket relay loop *)

(** What [_websocket_forward] asks of its destination [ws_to]: the
    attributes [closed] and [close_code] and the five coroutines it
    awaits, each of which returns the socket's next state or raises. *)
Class WebSocket (S : Type) := {
  closed : S → bool;
  close_code : S → option Z;
  send_str : aiohttp.WSData → S → Result S;
  send_bytes : aiohttp.WSData → S → Result S;
  ping : S → Result S;
  pong : S → Result S;
  close : option Z → option string → S → Result S;
}.

Section relay.
Context {S : Type} `{WebSocket S}.

(** The body of [async for msg in ws_from]. *)
Definition forward_one (msg : aiohttp.WSMessage) (ws_to : S) : Result S :=
  match aiohttp.type msg with
  | aiohttp.TEXT => send_str (aiohttp.msg_data msg) ws_to
  | aiohttp.BINARY => send_bytes (aiohttp.msg_data msg) ws_to
  | aiohttp.PING => ping ws_to
  | aiohttp.PONG => pong ws_to
  | _ =>
      if closed ws_to
      then close (close_code ws_to) (aiohttp.extra msg) ws_to
      else Return ws_to
  end.

(** [ws_from] is the sequence of messages the source's iterator yields. *)
Fixpoint _websocket_forward (ws_from : list aiohttp.WSMessage) (ws_to : S)
    : Result S :=
  match ws_from with
  | [] => Return ws_to
  | msg :: rest => ws_to' ← forward_one msg ws_to;
                   _websocket_forward rest ws_to'
  end.
End relay.

(** A destination that records the calls made on it. *)
Module Recorder.

Inductive Call :=
| SendStr (payload : aiohttp.WSData)
| SendBytes (payload : aiohttp.WSData)
| Ping
| Pong
| Close (code : option Z) (message : option string).

Record t := {
  is_closed : bool;
  code : option Z;
  calls : list Call;
}.

Definition record (c : Call) (s : t) : Result t :=
  Return {| is_closed := is_closed s; code := code s;
            calls := calls s ++ [c] |}.

#[global] Instance socket : WebSocket t := {|
  closed := is_closed;
  close_code := code;
  send_str d := record (SendStr d);
  send_bytes d := record (SendBytes d);
  ping := record Ping;
  pong := record Pong;
  close c m s :=
    Return {| is_closed := true; code := code s;
              calls := calls s ++ [Close c m] |};
|}.

(** The call one message leads to on a destination in state [s]. *)
Definition call_for (msg : aiohttp.WSMessage) (s : t) : list Call :=
  match aiohttp.type msg with
  | aiohttp.TEXT => [SendStr (aiohttp.msg_data msg)]
  | aiohttp.BINARY => [SendBytes (aiohttp.msg_data msg)]
  | aiohttp.PING => [Ping]
  | aiohttp.PONG => [Pong]
  | _ => if is_closed s then [Close (code s) (aiohttp.extra msg)] else []
  end.

End Recorder.

(** ** Vocabulary of the statements *)
Section vocabulary.
Variables X_HASSIO X_INGRESS_PATH : string.
Variable environ : gmap string string.

(** The value written under [X-Forwarded-For] for a caller at [ip]. *)
Definition forwarded_for (request : web.Request) (ip : string) : string :=
  match CIMultiDict.get hdrs.X_FORWARDED_FOR (web.headers request) with
  | Some (String _ _ as existing) => existing +:+ ", " +:+ ip
  | _ => ip
  end.

(** The entry of the outbound dict under the exact name [name], read off
    the order of the assignments: a later assignment wins. *)
Definition outbound_entry (request : web.Request) (addon ip name : string)
    : option string :=
  let inbound := web.headers request in
  if bool_decide (name = hdrs.X_FORWARDED_PROTO) then
    Some (or_else (CIMultiDict.get hdrs.X_FORWARDED_PROTO inbound)
                  (web.scheme request))
  else if bool_decide (name = hdrs.X_FORWARDED_HOST) then
    Some (or_else (CIMultiDict.get hdrs.X_FORWARDED_HOST inbound)
                  (web.host request))
  else if bool_decide (name = hdrs.X_FORWARDED_FOR) then
    Some (forwarded_for request ip)
  else if bool_decide (name = X_INGRESS_PATH) then
    Some ("/api/hassio_ingress/" +:+ addon)
  else if bool_decide (name = X_HASSIO) then
    Some (default "" (environ !! "HASSIO_TOKEN"))
  else if in_tuple name [hdrs.CONTENT_LENGTH; hdrs.CONTENT_TYPE] then None
  else last_value name (CIMultiDict.items inbound).

End vocabulary.

(** The backend response carries a [Content-Length] whose integer value
    is below the streaming threshold. *)
Definition content_length_below (result : aiohttp.ClientResponse) : Prop :=
  ∃ (v : string) (n : Z),
    CIMultiDict.get hdrs.CONTENT_LENGTH (aiohttp.resp_headers result) = Some v
    ∧ Py.int v = Some n ∧ (n < 4194000)%Z.

(** The backend response carries no [Content-Length], or one whose integer
    value reaches the threshold. *)
Definition content_length_absent_or_large (result : aiohttp.ClientResponse)
    : Prop :=
  CIMultiDict.get hdrs.CONTENT_LENGTH (aiohttp.resp_headers result) = None
  ∨ ∃ (v : string) (n : Z),
      CIMultiDict.get hdrs.CONTENT_LENGTH (aiohttp.resp_headers result)
        = Some v
      ∧ Py.int v = Some n ∧ (4194000 ≤ n)%Z.

(** A frame that is neither text, binary, ping nor pong. *)
Definition other_frame (msg : aiohttp.WSMessage) : Prop :=
  aiohttp.type msg ∉
    [aiohttp.TEXT; aiohttp.BINARY; aiohttp.PING; aiohttp.PONG].

(** ** Concrete requests, responses and sessions *)
Module Examples.

Definition X_HASSIO := "X-HASSIO-KEY".
Definition X_INGRESS_PATH := "X-Ingress-Path".
Definition environ : gmap string string := {[ "HASSIO_TOKEN" := "s3cret" ]}.

(** A GET from 5.6.7.8 with the given headers and query, and without the
    Sec-WebSocket headers of a handshake. *)
Definition get_request (inbound : CIMultiDict.t) (query_string : string)
    (query : list (string * string)) : web.Request :=
  {| web.method := "GET";
     web.headers := inbound;
     web.query_string := query_string;
     web.query := query;
     web.body := [];
     web.cookies := [];
     web.host := "ha.local:8123";
     web.scheme := "http";
     web.peername := web.Address "5.6.7.8";
     web.prepare_error := Some HTTPBadRequest |}.

(** A 200 answer with the given headers whose body arrives in one chunk. *)
Definition answer (headers : CIMultiDict.t) (body : string)
    : aiohttp.ClientResponse :=
  {| aiohttp.status := 200;
     aiohttp.resp_headers := headers;
     aiohttp.content_type := "text/plain";
     aiohttp.content := [list_byte_of_string body];
     aiohttp.content_error := None |}.

(** A session whose every HTTP call ends in [outcome]. *)
Definition session (outcome : Result aiohttp.ClientResponse)
    : aiohttp.ClientSession :=
  {| aiohttp.request := λ _, outcome;
     aiohttp.ws_connect := λ _ _, Raise ClientConnectionError |}.

Definition view (outcome : Result aiohttp.ClientResponse) : HassIOIngress :=
  {| _host := "172.30.32.2"; _websession := session outcome |}.

Definition init_header := _init_header X_HASSIO X_INGRESS_PATH environ.
Definition handle (outcome : Result aiohttp.ClientResponse)
    (request : web.Request) : IO web.Reply :=
  _handle X_HASSIO X_INGRESS_PATH environ (view outcome) request
          "core_ssh" "index.html".

(** Inbound headers in lower case, as a client may send them. *)
Definition lower_case_request : web.Request :=
  get_request [("content-length", "5"); ("x-hassio-key", "forged")] "" [].

(** An inbound [X-Forwarded-For] header that is present and empty. *)
Definition empty_forwarded_request : web.Request :=
  get_request [("X-Forwarded-For", "")] "" [].

Definition forwarded_request : web.Request :=
  get_request [("X-Forwarded-For", "1.2.3.4")] "" [].

Definition bare_request : web.Request := get_request [] "" [].

(** Two requests that differ in the raw query string only: [?a] and
    [?a=] both parse to the one parameter [a] with an empty value. *)
Definition query_request_1 : web.Request := get_request [] "a" [("a", "")].
Definition query_request_2 : web.Request := get_request [] "a=" [("a", "")].

(** A backend answer that sets two cookies. *)
Definition two_cookies : aiohttp.ClientResponse :=
  answer [("Set-Cookie", "a=1"); ("Set-Cookie", "b=2")] "ok".

Definition small_answer : aiohttp.ClientResponse :=
  answer [("Content-Length", "2"); ("Server", "nginx")] "ok".

Definition malformed_answer : aiohttp.ClientResponse :=
  answer [("Content-Length", "abc")] "ok".

(** An ingress view whose session reads what [backend] sends the way a
    digits-only parser does. *)
Definition client_view
    (backend : aiohttp.ClientRequest → Result aiohttp.ClientResponse)
    : HassIOIngress :=
  {| _host := "172.30.32.2";
     _websession :=
       client_session digits_only backend
         (λ _ _, Raise ClientConnectionError) |}.

(** A destination that closed with code 1000, and frames arriving for it:
    a text frame, then a close frame carrying code 1001 and a reason. *)
Definition closed_socket : Recorder.t :=
  {| Recorder.is_closed := true; Recorder.code := Some 1000;
     Recorder.calls := [] |}.

Definition text_frame (s : string) : aiohttp.WSMessage :=
  {| aiohttp.type := aiohttp.TEXT; aiohttp.msg_data := aiohttp.Str s;
     aiohttp.extra := None |}.

Definition close_frame : aiohttp.WSMessage :=
  {| aiohttp.type := aiohttp.CLOSE; aiohttp.msg_data := aiohttp.Code 1001;
     aiohttp.extra := Some "going away" |}.

End Examples.

(** ** Vocabulary of the further properties *)

(** Two header lists that carry the same values in the same order under
    names that differ at most in the case of their letters. *)
Definition same_headers (d d' : CIMultiDict.t) : Prop :=
  Forall2 (λ p p', CIMultiDict.same_name p.1 p'.1 = true ∧ p.2 = p'.2) d d'.

(** The body bytes a log of events shows as written to the caller. *)
Definition written (log : list web.Event) : bytes :=
  flat_map (λ ev, match ev with web.Wrote data => data | _ => [] end) log.

(** A string without "/", as the [{addon}] part of the route matches it. *)
Fixpoint slash_free (s : string) : bool :=
  match s with
  | EmptyString => true
  | String c s' => negb (Ascii.eqb c "/") && slash_free s'
  end.

(** The names the outbound transform assigns after the copy loop. *)
Definition injected_names (X_HASSIO X_INGRESS_PATH : string) : list string :=
  [X_HASSIO; X_INGRESS_PATH; hdrs.X_FORWARDED_FOR; hdrs.X_FORWARDED_HOST;
   hdrs.X_FORWARDED_PROTO].

Module MoreExamples.

(** An upgrade request whose header names arrive in lower case. *)
Definition upgrade_request : web.Request :=
  Examples.get_request
    [("connection", "Upgrade"); ("upgrade", "websocket")] "token=1" [].

Definition upgrade_request_canonical : web.Request :=
  Examples.get_request
    [("Connection", "Upgrade"); ("Upgrade", "websocket")] "token=1" [].

(** An upgrade request with the Sec-WebSocket headers of a handshake the
    framework accepts. *)
Definition websocket_request : web.Request :=
  {| web.method := "GET";
     web.headers := [("Host", "ha.local:8123"); ("Connection", "Upgrade");
                     ("Upgrade", "websocket");
                     ("Sec-WebSocket-Version", "13");
                     ("Sec-WebSocket-Key", "dGhlIHNhbXBsZSBub25jZQ==")];
     web.query_string := ""; web.query := []; web.body := [];
     web.cookies := []; web.host := "ha.local:8123"; web.scheme := "http";
     web.peername := web.Address "5.6.7.8";
     web.prepare_error := None |}.

(** A request whose peer name is not an IP address. *)
Definition unresolved_request : web.Request :=
  {| web.method := "GET"; web.headers := []; web.query_string := "";
     web.query := []; web.body := []; web.cookies := [];
     web.host := "ha.local:8123"; web.scheme := "http";
     web.peername := web.NotAnAddress;
     web.prepare_error := Some HTTPBadRequest |}.

(** A request that went through another proxy and carries a cookie. *)
Definition proxied_request : web.Request :=
  Examples.get_request
    [("x-forwarded-host", "example.org"); ("X-Forwarded-Proto", "https");
     ("Cookie", "session=1"); ("Content-Type", "text/plain")] "" [].

(** A long answer without Content-Length whose stream breaks after two
    chunks. *)
Definition broken_stream : aiohttp.ClientResponse :=
  {| aiohttp.status := 200;
     aiohttp.resp_headers := [("Server", "nginx")];
     aiohttp.content_type := "text/html";
     aiohttp.content := [list_byte_of_string "<html>";
                         list_byte_of_string "<body>"];
     aiohttp.content_error := Some ClientPayloadError |}.

Definition whole_stream : aiohttp.ClientResponse :=
  {| aiohttp.status := 200;
     aiohttp.resp_headers := [("Server", "nginx")];
     aiohttp.content_type := "text/html";
     aiohttp.content := [list_byte_of_string "<html>";
                         list_byte_of_string "</html>"];
     aiohttp.content_error := None |}.

(** An answer that announces a small body and breaks while it is read. *)
Definition broken_small_answer : aiohttp.ClientResponse :=
  {| aiohttp.status := 200;
     aiohttp.resp_headers := [("content-length", "10")];
     aiohttp.content_type := "text/plain";
     aiohttp.content := [list_byte_of_string "abc"];
     aiohttp.content_error := Some ClientPayloadError |}.

(** A session with a backend the WebSocket connect reaches or not. *)
Definition ws_session (outcome : Result (list aiohttp.WSMessage))
    : aiohttp.ClientSession :=
  {| aiohttp.request := λ _, Raise ClientConnectionError;
     aiohttp.ws_connect := λ _ _, outcome |}.

Definition ws_view (outcome : Result (list aiohttp.WSMessage))
    : HassIOIngress :=
  {| _host := "172.30.32.2"; _websession := ws_session outcome |}.

Definition open_socket : Recorder.t :=
  {| Recorder.is_closed := false; Recorder.code := None;
     Recorder.calls := [] |}.

Definition binary_frame (s : string) : aiohttp.WSMessage :=
  {| aiohttp.type := aiohttp.BINARY;
     aiohttp.msg_data := aiohttp.Bytes (list_byte_of_string s);
     aiohttp.extra := None |}.

Definition ping_frame : aiohttp.WSMessage :=
  {| aiohttp.type := aiohttp.PING; aiohttp.msg_data := aiohttp.NoData;
     aiohttp.extra := None |}.

Definition error_frame : aiohttp.WSMessage :=
  {| aiohttp.type := aiohttp.ERROR; aiohttp.msg_data := aiohttp.NoData;
     aiohttp.extra := None |}.

(** A destination whose transport fails on every write. *)
Inductive Broken := broken.

#[global] Instance broken_socket : WebSocket Broken := {|
  closed _ := false;
  close_code _ := None;
  send_str _ _ := Raise ClientConnectionError;
  send_bytes _ _ := Raise ClientConnectionError;
  ping _ := Raise ClientConnectionError;
  pong _ := Raise ClientConnectionError;
  close _ _ s := Return s;
|}.

End MoreExamples.

(** * Properties *)

(** Membership in, and absence from, a list that is written out. *)
Ltac listed := solve [repeat (first [by left | right])].
Ltac not_listed :=
  let Hin := fresh "Hin" in
  intros Hin;
  repeat (apply elem_of_cons in Hin as [Hin|Hin]; [discriminate Hin|]);
  by apply elem_of_nil in Hin.

(** ** Multi-dict lookups and the copy loop *)
Section lookup_facts.
Implicit Types (l : list (string * string)) (name key value : string).

Lemma in_tuple_true name names : in_tuple name names = true ↔ name ∈ names.
Proof. unfold in_tuple. by rewrite bool_decide_eq_true. Qed.

Lemma in_tuple_false name names :
  in_tuple name names = false ↔ name ∉ names.
Proof. unfold in_tuple. by rewrite bool_decide_eq_false. Qed.

Lemma last_value_app name l l' :
  last_value name (l ++ l') =
    match last_value name l' with
    | Some v => Some v
    | None => last_value name l
    end.
Proof.
  induction l as [|[n v] l IH]; simpl.
  - by destruct (last_value name l').
  - rewrite IH. by destruct (last_value name l').
Qed.

(** A value found by [last_value] is one the list carries. *)
Lemma last_value_elem name value l :
  last_value name l = Some value → (name, value) ∈ l.
Proof.
  induction l as [|[n v] l IH]; simpl; [done|].
  destruct (last_value name l) as [v'|] eqn:E.
  - intros [= <-]. right. by apply IH.
  - case_bool_decide; [|done]. intros [= <-]. subst. left.
Qed.

Lemma last_value_None name l :
  last_value name l = None ↔ name ∉ l.*1.
Proof.
  induction l as [|[n v] l IH]; simpl.
  - split; [|done]. intros _ Hin. inversion Hin.
  - destruct (last_value name l) as [v'|] eqn:E.
    + split; [done|]. intros Hn. exfalso.
      assert (name ∉ l.*1) as Hl by (intros ?; apply Hn; by right).
      apply IH in Hl. done.
    + case_bool_decide as Hnv.
      * split; [done|]. intros Hn. exfalso. apply Hn. subst. left.
      * split; [|done]. intros _ Hin.
        apply elem_of_cons in Hin as [->|Hin]; [done|].
        by apply (proj1 IH).
Qed.

Lemma last_value_is_Some name l :
  is_Some (last_value name l) ↔ name ∈ l.*1.
Proof.
  rewrite <- not_eq_None_Some, last_value_None.
  split; [apply dec_stable | by intros ? ?].
Qed.

(** Without repeated names [last_value] finds exactly the pairs of the
    list. *)
Lemma last_value_NoDup name value l :
  NoDup l.*1 → last_value name l = Some value ↔ (name, value) ∈ l.
Proof.
  intros Hnd. split; [apply last_value_elem|].
  induction l as [|[n v] l IH]; simpl; [by intros ?%elem_of_nil|].
  apply NoDup_cons in Hnd as [Hn Hnd]. simpl in Hn.
  intros [[= <- <-]|Hin]%elem_of_cons.
  - apply last_value_None in Hn. rewrite Hn.
    by rewrite bool_decide_eq_true_2.
  - by rewrite (IH Hnd Hin).
Qed.

(** The copy loop from any starting dict. *)
Lemma copy_loop_lookup excluded l (acc : dict) name :
  foldl (λ (headers : dict) '(n, v),
           if in_tuple n excluded then headers else <[n := v]> headers)
        acc l !! name =
    match (if in_tuple name excluded then None else last_value name l) with
    | Some v => Some v
    | None => acc !! name
    end.
Proof.
  revert acc. induction l as [|[n v] l IH]; intros acc; simpl.
  - by destruct (in_tuple name excluded).
  - rewrite IH. destruct (in_tuple name excluded) eqn:Hex; [|].
    + destruct (in_tuple n excluded) eqn:Hn; [done|].
      rewrite lookup_insert_ne; [done|]. intros ->. congruence.
    + destruct (last_value name l) as [v'|]; [done|].
      case_bool_decide as Hnv.
      * subst n. rewrite Hex. by rewrite lookup_insert_eq.
      * destruct (in_tuple n excluded); [done|].
        by rewrite lookup_insert_ne.
Qed.

(** What the dict built by the copy loop holds under each exact name. *)
Lemma copy_headers_lookup excluded l name :
  copy_headers excluded l !! name =
    if in_tuple name excluded then None else last_value name l.
Proof.
  unfold copy_headers. rewrite copy_loop_lookup, lookup_empty.
  destruct (in_tuple name excluded); [done|].
  by destruct (last_value name l).
Qed.

Lemma truthy_Some (v : string) : truthy (Some v) = true ↔ v ≠ "".
Proof. destruct v; simpl; split; done. Qed.

Lemma or_else_falsy (x : option string) fallback :
  truthy x = false → or_else x fallback = fallback.
Proof. unfold or_else. by intros ->. Qed.

Lemma or_else_truthy v fallback :
  v ≠ "" → or_else (Some v) fallback = v.
Proof. unfold or_else. intros Hv%truthy_Some. by rewrite Hv. Qed.

End lookup_facts.

(** ** The outbound (client to backend) header transform *)
Section outbound.
Variables X_HASSIO X_INGRESS_PATH : string.
Variable environ : gmap string string.

#[local] Abbreviation init_header :=
  (_init_header X_HASSIO X_INGRESS_PATH environ).
#[local] Abbreviation entry :=
  (outbound_entry X_HASSIO X_INGRESS_PATH environ).

Lemma forwarded_for_unfold request ip :
  let existing :=
    CIMultiDict.get hdrs.X_FORWARDED_FOR (web.headers request) in
  (if truthy existing then default "" existing +:+ ", " +:+ ip else ip)
  = forwarded_for request ip.
Proof.
  unfold forwarded_for. simpl.
  by destruct (CIMultiDict.get _ _) as [[|c s]|].
Qed.

Lemma ip_address_returns request ip :
  web.connected_ip request = Some ip → ip_address request = Return ip.
Proof.
  unfold web.connected_ip, ip_address.
  destruct (web.peername request); try done. by intros [= ->].
Qed.

(** What the peer look-up raises is neither a client error nor the
    gateway error. *)
Lemma ip_address_raises request :
  web.connected_ip request = None →
  ∃ e, ip_address request = Raise e
       ∧ is_ClientError e = false ∧ e ≠ HTTPBadGateway.
Proof.
  unfold web.connected_ip, ip_address.
  destruct (web.peername request); try done; intros _; by eexists.
Qed.

(** The transform fails when the peer look-up does, and as it does. *)
Lemma init_header_raises request addon e :
  ip_address request = Raise e →
  init_header request addon = Raise e.
Proof. unfold _init_header. by intros ->. Qed.

(** With a resolved peer the transform returns, and the dict it returns is
    described entry by entry by [outbound_entry]. *)
Lemma init_header_returns request addon ip :
  web.connected_ip request = Some ip →
  ∃ h : dict,
    init_header request addon = Return h
    ∧ ∀ name, h !! name = entry request addon ip name.
Proof.
  intros Hip%ip_address_returns. unfold _init_header. rewrite Hip. simpl.
  eexists; split; [reflexivity|]. intros name.
  rewrite forwarded_for_unfold. unfold outbound_entry.
  repeat (case_bool_decide;
          [subst name; by rewrite lookup_insert_eq
          |rewrite lookup_insert_ne by done]).
  apply copy_headers_lookup.
Qed.

Lemma init_header_inv request addon (h : dict) :
  init_header request addon = Return h →
  ∃ ip, web.connected_ip request = Some ip
        ∧ ∀ name, h !! name = entry request addon ip name.
Proof.
  intros Hh. destruct (web.connected_ip request) as [ip|] eqn:Hip.
  - exists ip. split; [done|].
    destruct (init_header_returns request addon ip Hip) as (h' & Hh' & Hl).
    congruence.
  - destruct (ip_address_raises request Hip) as (e & He & _).
    by rewrite (init_header_raises request addon e He) in Hh.
Qed.

(** C3 (as amended). The outbound transform works on exact header names:
    the exclusion test and the five assignments compare names
    case-sensitively, and only the look-ups of the inbound
    X-Forwarded-For, -Host and -Proto values ignore case. For a caller
    whose address resolves, the result is a dict, one value per exact
    name: the five injected names carry the injected values, the exact
    names Content-Length and Content-Type are absent, and every other
    name carries the last inbound value sent under exactly that name
    (overwrite, not append). Among the injected values only
    X-Forwarded-For extends an inbound value. *)
Theorem C3_outbound_dict_by_exact_name request addon ip :
  web.connected_ip request = Some ip →
  ∃ h : dict,
    init_header request addon = Return h
    ∧ ∀ name, h !! name = entry request addon ip name.
Proof. apply init_header_returns. Qed.

(** C4 (as amended). For a caller whose address resolves to [ip], the
    outbound X-Forwarded-For entry is the inbound X-Forwarded-For value
    followed by a comma, a space and [ip] when that value is present and
    not empty, and [ip] alone when it is absent or empty. *)
Theorem C4_forwarded_for_entry request addon ip :
  web.connected_ip request = Some ip →
  let existing :=
    CIMultiDict.get hdrs.X_FORWARDED_FOR (web.headers request) in
  ∃ h : dict,
    init_header request addon = Return h
    ∧ (∀ v, existing = Some v → v ≠ "" →
            h !! hdrs.X_FORWARDED_FOR = Some (v +:+ ", " +:+ ip))
    ∧ (existing = None ∨ existing = Some "" →
       h !! hdrs.X_FORWARDED_FOR = Some ip).
Proof.
  intros Hip existing.
  destruct (init_header_returns request addon ip Hip) as (h & Hh & Hl).
  exists h. split; [done|].
  assert (h !! hdrs.X_FORWARDED_FOR = Some (forwarded_for request ip)) as ->.
  { rewrite Hl. unfold outbound_entry.
    rewrite bool_decide_eq_false_2 by done.
    rewrite bool_decide_eq_false_2 by done.
    by rewrite bool_decide_eq_true_2. }
  unfold forwarded_for. fold existing. split.
  - intros v -> Hv. by destruct v.
  - by intros [-> | ->].
Qed.

(** C9. Whatever the inbound headers are, the outbound entry under the
    exact trust-token name is the value of HASSIO_TOKEN in the process
    environment (the empty string when unset) and the entry under the exact
    ingress-path name is "/api/hassio_ingress/" followed by the add-on
    name; two requests for the same add-on therefore get the same two
    entries. The two names are those of the [const] module, assumed
    distinct from each other and from the three X-Forwarded names. *)
Theorem C9_injected_entries_ignore_inbound request1 request2 addon ip1 ip2 :
  X_HASSIO ∉ [X_INGRESS_PATH; hdrs.X_FORWARDED_FOR; hdrs.X_FORWARDED_HOST;
              hdrs.X_FORWARDED_PROTO] →
  X_INGRESS_PATH ∉ [hdrs.X_FORWARDED_FOR; hdrs.X_FORWARDED_HOST;
                    hdrs.X_FORWARDED_PROTO] →
  web.connected_ip request1 = Some ip1 →
  web.connected_ip request2 = Some ip2 →
  ∃ h1 h2 : dict,
    init_header request1 addon = Return h1
    ∧ init_header request2 addon = Return h2
    ∧ h1 !! X_HASSIO = Some (default "" (environ !! "HASSIO_TOKEN"))
    ∧ h1 !! X_INGRESS_PATH = Some ("/api/hassio_ingress/" +:+ addon)
    ∧ h2 !! X_HASSIO = h1 !! X_HASSIO
    ∧ h2 !! X_INGRESS_PATH = h1 !! X_INGRESS_PATH.
Proof.
  intros Hk Hp Hip1 Hip2.
  destruct (init_header_returns request1 addon ip1 Hip1) as (h1 & Hh1 & Hl1).
  destruct (init_header_returns request2 addon ip2 Hip2) as (h2 & Hh2 & Hl2).
  exists h1, h2. split; [done|]. split; [done|].
  assert (∀ request ip,
            entry request addon ip X_HASSIO
            = Some (default "" (environ !! "HASSIO_TOKEN"))) as Hkey.
  { intros request ip. unfold outbound_entry.
    repeat (rewrite bool_decide_eq_false_2
              by (intros E; apply Hk; rewrite E; listed)).
    by rewrite bool_decide_eq_true_2. }
  assert (∀ request ip,
            entry request addon ip X_INGRESS_PATH
            = Some ("/api/hassio_ingress/" +:+ addon)) as Hpath.
  { intros request ip. unfold outbound_entry.
    repeat (rewrite bool_decide_eq_false_2
              by (intros E; apply Hp; rewrite E; listed)).
    by rewrite bool_decide_eq_true_2. }
  by rewrite !Hl1, !Hl2, !Hkey, !Hpath.
Qed.

End outbound.

(** C3, witness: a request from 5.6.7.8 that sends its headers in lower
    case. *)
Lemma C3_outbound_dict_witness :
  web.connected_ip Examples.lower_case_request = Some "5.6.7.8"
  ∧ ∃ h : dict,
      Examples.init_header Examples.lower_case_request "core_ssh" = Return h
      ∧ ∀ name,
          h !! name
          = outbound_entry Examples.X_HASSIO Examples.X_INGRESS_PATH
              Examples.environ Examples.lower_case_request "core_ssh"
              "5.6.7.8" name.
Proof.
  split; [reflexivity|].
  exact (C3_outbound_dict_by_exact_name Examples.X_HASSIO
           Examples.X_INGRESS_PATH Examples.environ
           Examples.lower_case_request "core_ssh" "5.6.7.8" eq_refl).
Defined.

(** C3, counterexample to the claim as stated: a client sends
    [content-length] and [x-hassio-key] in lower case. Neither comparison
    ignores case: the content-length header is copied, and the forged
    token stays in the outbound set next to the injected one, two values
    for one header name up to case. *)
Lemma C3_counterexample_lower_case_names :
  CIMultiDict.same_name "content-length" hdrs.CONTENT_LENGTH = true
  ∧ CIMultiDict.same_name "x-hassio-key" Examples.X_HASSIO = true
  ∧ ∃ h : dict,
      Examples.init_header Examples.lower_case_request "core_ssh" = Return h
      ∧ h !! "content-length" = Some "5"
      ∧ h !! "x-hassio-key" = Some "forged"
      ∧ h !! Examples.X_HASSIO = Some "s3cret".
Proof.
  split; [reflexivity|]. split; [reflexivity|].
  eexists. split; [reflexivity|].
  repeat split; vm_compute; reflexivity.
Qed.

(** C4, witness: the example of the specification, "1.2.3.4" extended by
    the peer 5.6.7.8. *)
Lemma C4_forwarded_for_witness :
  web.connected_ip Examples.forwarded_request = Some "5.6.7.8"
  ∧ ∃ h : dict,
      Examples.init_header Examples.forwarded_request "core_ssh" = Return h
      ∧ h !! hdrs.X_FORWARDED_FOR = Some "1.2.3.4, 5.6.7.8".
Proof.
  split; [reflexivity|].
  destruct (C4_forwarded_for_entry Examples.X_HASSIO Examples.X_INGRESS_PATH
              Examples.environ Examples.forwarded_request "core_ssh"
              "5.6.7.8" eq_refl) as (h & Hh & Hsome & _).
  exists h. split; [exact Hh|].
  apply (Hsome "1.2.3.4"); [reflexivity | discriminate].
Defined.

(** C4, counterexample to the claim as stated: the request carries an
    X-Forwarded-For header whose value is empty. The outbound value is the
    peer address alone, not the inbound value followed by ", " and the
    peer address. *)
Lemma C4_counterexample_empty_value :
  CIMultiDict.get hdrs.X_FORWARDED_FOR
    (web.headers Examples.empty_forwarded_request) = Some ""
  ∧ ∃ h : dict,
      Examples.init_header Examples.empty_forwarded_request "core_ssh"
        = Return h
      ∧ h !! hdrs.X_FORWARDED_FOR = Some "5.6.7.8"
      ∧ h !! hdrs.X_FORWARDED_FOR ≠ Some ("" +:+ ", " +:+ "5.6.7.8").
Proof.
  split; [reflexivity|].
  eexists. split; [reflexivity|].
  split; [vm_compute; reflexivity|].
  vm_compute. discriminate.
Qed.

(** Without an inbound X-Forwarded-For the entry is the peer address. *)
Example forwarded_for_alone :
  ∃ h : dict,
    Examples.init_header Examples.bare_request "core_ssh" = Return h
    ∧ h !! hdrs.X_FORWARDED_FOR = Some "5.6.7.8".
Proof. eexists. split; [reflexivity|]. vm_compute. reflexivity. Qed.

(** C9, witness: a forged token header against a request without one. *)
Lemma C9_injected_entries_witness :
  ∃ h1 h2 : dict,
    Examples.init_header
      (Examples.get_request [(Examples.X_HASSIO, "forged")] "" [])
      "core_ssh" = Return h1
    ∧ Examples.init_header Examples.bare_request "core_ssh" = Return h2
    ∧ h1 !! Examples.X_HASSIO = Some "s3cret"
    ∧ h1 !! Examples.X_INGRESS_PATH = Some "/api/hassio_ingress/core_ssh"
    ∧ h2 !! Examples.X_HASSIO = h1 !! Examples.X_HASSIO
    ∧ h2 !! Examples.X_INGRESS_PATH = h1 !! Examples.X_INGRESS_PATH.
Proof.
  apply (C9_injected_entries_ignore_inbound Examples.X_HASSIO
           Examples.X_INGRESS_PATH Examples.environ
           (Examples.get_request [(Examples.X_HASSIO, "forged")] "" [])
           Examples.bare_request "core_ssh" "5.6.7.8" "5.6.7.8").
  - vm_compute. not_listed.
  - vm_compute. not_listed.
  - reflexivity.
  - reflexivity.
Defined.

(** ** The inbound (backend to client) header transform *)

(** C7 (as amended). The response transform builds a dict keyed by the
    exact header name. A name is in the output iff it occurs in the
    backend response and is not exactly Transfer-Encoding, Content-Length
    or Content-Type; its value is the last one the backend sent under that
    exact name; and when the backend repeats no name, the output holds
    exactly the backend's headers outside those three, values unchanged. *)
Theorem C7_response_header_by_exact_name response name value :
  let backend := CIMultiDict.items (aiohttp.resp_headers response) in
  let excluded :=
    [hdrs.TRANSFER_ENCODING; hdrs.CONTENT_LENGTH; hdrs.CONTENT_TYPE] in
  (is_Some (_response_header response !! name)
   ↔ name ∈ backend.*1 ∧ name ∉ excluded)
  ∧ (_response_header response !! name = Some value
     ↔ last_value name backend = Some value ∧ name ∉ excluded)
  ∧ (NoDup backend.*1 →
     _response_header response !! name = Some value
     ↔ (name, value) ∈ backend ∧ name ∉ excluded).
Proof.
  intros backend excluded. unfold _response_header.
  fold backend. fold excluded. rewrite copy_headers_lookup.
  destruct (in_tuple name excluded) eqn:Hex.
  - apply in_tuple_true in Hex.
    split; [|split; [|intros _]]; split;
      try (by intros [? ?]); done.
  - apply in_tuple_false in Hex.
    split; [|split; [|intros Hnd]].
    + rewrite last_value_is_Some. tauto.
    + tauto.
    + rewrite (last_value_NoDup name value backend Hnd). tauto.
Qed.

(** C7, witness: an answer without repeated names keeps [Server] and
    drops [Content-Length]. *)
Lemma C7_response_header_witness :
  _response_header Examples.small_answer !! "Server" = Some "nginx"
  ∧ _response_header Examples.small_answer !! "Content-Length" = None.
Proof.
  split.
  - apply (C7_response_header_by_exact_name Examples.small_answer
             "Server" "nginx").
    + vm_compute. repeat constructor; not_listed.
    + split; [listed|]. vm_compute. not_listed.
  - apply eq_None_not_Some.
    intros Hsome.
    apply (C7_response_header_by_exact_name Examples.small_answer
             "Content-Length" "") in Hsome as [_ Hnot].
    apply Hnot. listed.
Defined.

(** C7, counterexample to the claim as stated: the backend sets two
    cookies. The first [Set-Cookie] header is a backend header outside the
    three excluded names, and it is not in the output: the dict keeps the
    second only. *)
Lemma C7_counterexample_repeated_name :
  let backend :=
    CIMultiDict.items (aiohttp.resp_headers Examples.two_cookies) in
  ("Set-Cookie", "a=1") ∈ backend
  ∧ ("Set-Cookie" ∉
       [hdrs.TRANSFER_ENCODING; hdrs.CONTENT_LENGTH; hdrs.CONTENT_TYPE])
  ∧ _response_header Examples.two_cookies !! "Set-Cookie" = Some "b=2"
  ∧ _response_header Examples.two_cookies !! "Set-Cookie" ≠ Some "a=1".
Proof.
  simpl. split; [listed|]. split.
  - vm_compute. not_listed.
  - split; [vm_compute; reflexivity | vm_compute; discriminate].
Qed.

(** ** The protocol classifier *)

(** C8. The classifier is a total function to [bool]; it answers [true]
    exactly when the Connection header is the string "Upgrade" and the
    Upgrade header is the string "websocket", both compared
    case-sensitively. *)
Theorem C8_is_websocket_iff (request : web.Request) :
  _is_websocket request = true
  ↔ CIMultiDict.get hdrs.CONNECTION (web.headers request) = Some "Upgrade"
    ∧ CIMultiDict.get hdrs.UPGRADE (web.headers request) = Some "websocket".
Proof.
  unfold _is_websocket. simpl.
  do 2 case_bool_decide; simpl; intuition congruence.
Qed.

(** Case variants of the two values are not an upgrade request. *)
Example is_websocket_case_variants :
  _is_websocket (Examples.get_request
     [("Connection", "Upgrade"); ("Upgrade", "websocket")] "" []) = true
  ∧ _is_websocket (Examples.get_request
     [("Connection", "upgrade"); ("Upgrade", "websocket")] "" []) = false
  ∧ _is_websocket (Examples.get_request
     [("Connection", "Upgrade"); ("Upgrade", "WebSocket")] "" []) = false
  ∧ _is_websocket (Examples.get_request
     [("Connection", "keep-alive, Upgrade"); ("Upgrade", "websocket")]
     "" []) = false
  ∧ _is_websocket (Examples.get_request [("Upgrade", "websocket")] "" [])
    = false.
Proof. repeat split; vm_compute; reflexivity. Qed.

(** ** The HTTP forwarder and the dispatcher *)
Section io_facts.
Context {A B : Type}.

Lemma bind_lift_Return (a : A) (f : A → IO B) :
  (lift (Return a) ≫= f) = f a.
Proof. unfold lift, mbind, IO_bind. by destruct (f a). Qed.

Lemma bind_lift_Raise (e : Exception) (f : A → IO B) :
  (lift (Raise e) ≫= f) = (Raise e, []).
Proof. reflexivity. Qed.

End io_facts.

Lemma write_all_log (chunks : list bytes) :
  write_all chunks = (Return tt, web.Wrote <$> chunks).
Proof.
  induction chunks as [|data rest IH]; [done|].
  simpl. rewrite IH. reflexivity.
Qed.

Lemma contains_get key (d : CIMultiDict.t) :
  CIMultiDict.contains key d = true ↔ is_Some (CIMultiDict.get key d).
Proof. unfold CIMultiDict.contains. by rewrite bool_decide_eq_true. Qed.

(** The three outcomes of the branch test. *)
Lemma simple_request_true result :
  simple_request result = Return true ↔ content_length_below result.
Proof.
  unfold simple_request, content_length_below.
  destruct (CIMultiDict.contains _ _) eqn:Hin.
  - apply contains_get in Hin as [v Hv]. rewrite Hv. simpl.
    destruct (Py.int v) as [n|] eqn:Hn; simpl.
    + split.
      * intros [= Hlt%bool_decide_eq_true]. eauto.
      * intros (v' & n' & [= <-] & Hn' & Hlt).
        assert (n' = n) as -> by congruence.
        unfold mret, Result_ret. f_equal. by apply bool_decide_eq_true.
    + split; [done|]. intros (v' & n' & [= <-] & Hn' & _). congruence.
  - split; [done|]. intros (v & n & Hv & _).
    assert (CIMultiDict.contains hdrs.CONTENT_LENGTH
              (aiohttp.resp_headers result) = true) as Hc
      by (apply contains_get; eauto).
    congruence.
Qed.

Lemma simple_request_false result :
  simple_request result = Return false
  ↔ content_length_absent_or_large result.
Proof.
  unfold simple_request, content_length_absent_or_large.
  destruct (CIMultiDict.contains _ _) eqn:Hin.
  - apply contains_get in Hin as [v Hv]. rewrite Hv. simpl.
    destruct (Py.int v) as [n|] eqn:Hn; simpl.
    + split.
      * intros [= Hge%bool_decide_eq_false]. right. exists v, n.
        repeat split; [done|lia].
      * intros [?|(v' & n' & [= <-] & Hn' & Hge)]; [done|].
        assert (n' = n) as -> by congruence.
        unfold mret, Result_ret. f_equal. apply bool_decide_eq_false. lia.
    + split; [done|].
      intros [?|(v' & n' & [= <-] & Hn' & _)]; [done|congruence].
  - split; [|done]. intros _. left.
    destruct (CIMultiDict.get _ _) eqn:Hget; [|done].
    assert (CIMultiDict.contains hdrs.CONTENT_LENGTH
              (aiohttp.resp_headers result) = true) as Hc
      by (apply contains_get; eauto).
    congruence.
Qed.

Lemma simple_request_raises result v :
  CIMultiDict.get hdrs.CONTENT_LENGTH (aiohttp.resp_headers result) = Some v →
  Py.int v = None →
  simple_request result = Raise ValueError.
Proof.
  intros Hv Hn. unfold simple_request.
  rewrite (proj2 (contains_get _ _)) by (rewrite Hv; eauto).
  rewrite Hv. simpl. by rewrite Hn.
Qed.

(** The reply to a backend response, branch by branch. *)
Lemma relay_response_buffered result body :
  simple_request result = Return true →
  aiohttp.read result = Return body →
  relay_response result
  = (Return (web.Response (_response_header result)
                          (aiohttp.status result) body), []).
Proof.
  intros Hs Hb. unfold relay_response.
  rewrite Hs, bind_lift_Return, Hb, bind_lift_Return. reflexivity.
Qed.

Lemma relay_response_buffered_fails result e :
  simple_request result = Return true →
  aiohttp.read result = Raise e →
  relay_response result = (Raise e, []).
Proof.
  intros Hs Hb. unfold relay_response.
  rewrite Hs, bind_lift_Return, Hb. reflexivity.
Qed.

Lemma relay_response_streamed result :
  simple_request result = Return false →
  let status := aiohttp.status result in
  let headers := _response_header result in
  let content_type := aiohttp.content_type result in
  (relay_response result).2
  = web.Prepared status headers content_type
      :: (web.Wrote <$> aiohttp.content result)
  ∧ ((∀ e, aiohttp.content_error result = Some e → is_ClientError e = true)
     → (relay_response result).1
       = Return (web.StreamResponse status headers content_type))
  ∧ (∀ hd st b, (relay_response result).1 ≠ Return (web.Response hd st b)).
Proof.
  intros Hs. unfold relay_response. rewrite Hs, bind_lift_Return.
  unfold relay_content. rewrite write_all_log.
  destruct (aiohttp.content_error result) as [e|] eqn:He; simpl.
  - destruct (is_ClientError e || is_ClientPayloadError e) eqn:Hc; simpl.
    + rewrite !app_nil_r. repeat split; done.
    + rewrite !app_nil_r. split; [done|]. split; [|done].
      intros Hall. rewrite (Hall e eq_refl) in Hc. done.
  - rewrite !app_nil_r. repeat split; done.
Qed.

Lemma relay_response_raises result e :
  simple_request result = Raise e →
  relay_response result = (Raise e, []).
Proof. intros Hs. unfold relay_response. by rewrite Hs. Qed.

Section forwarder.
Variables X_HASSIO X_INGRESS_PATH : string.
Variable environ : gmap string string.

#[local] Abbreviation init_header :=
  (_init_header X_HASSIO X_INGRESS_PATH environ).
#[local] Abbreviation handle_request :=
  (_handle_request X_HASSIO X_INGRESS_PATH environ).
#[local] Abbreviation handle := (_handle X_HASSIO X_INGRESS_PATH environ).

(** Once the headers are built the handler makes one backend call, and
    what follows depends on the answer alone. *)
Lemma handle_request_answered self request addon path source_header result :
  init_header request addon = Return source_header →
  aiohttp.request (_websession self)
    (backend_request self request addon path source_header) = Return result →
  handle_request self request addon path = relay_response result.
Proof.
  intros Hh Hr. unfold _handle_request.
  by rewrite Hh, bind_lift_Return, Hr, bind_lift_Return.
Qed.

Lemma handle_request_unanswered self request addon path source_header e :
  init_header request addon = Return source_header →
  aiohttp.request (_websession self)
    (backend_request self request addon path source_header) = Raise e →
  handle_request self request addon path = (Raise e, []).
Proof.
  intros Hh Hr. unfold _handle_request.
  by rewrite Hh, bind_lift_Return, Hr.
Qed.

Lemma handle_plain self request addon path :
  _is_websocket request = false →
  handle self request addon path
  = match handle_request self request addon path with
    | (Raise e, w) =>
        if is_ClientError e then (Raise HTTPBadGateway, w) else (Raise e, w)
    | finished => finished
    end.
Proof.
  intros Hws. unfold _handle. rewrite Hws.
  by destruct (handle_request self request addon path) as [[?|?] ?].
Qed.

(** C1. For a backend response [result], the forwarder takes the buffered
    branch exactly when the response carries a Content-Length whose
    integer value is below 4,194,000. In that case, once the body is read,
    it returns the body with the transformed headers and the backend's
    status, having written nothing itself. When the Content-Length is
    absent or its value is 4,194,000 or more it starts a streamed reply
    with the transformed headers and the backend's status, writes the
    chunks as they come, and returns the streamed reply. *)
Theorem C1_buffered_iff_small_content_length
    self request addon path source_header result :
  init_header request addon = Return source_header →
  aiohttp.request (_websession self)
    (backend_request self request addon path source_header) = Return result →
  let reply := handle_request self request addon path in
  let status := aiohttp.status result in
  let headers := _response_header result in
  let content_type := aiohttp.content_type result in
  (simple_request result = Return true ↔ content_length_below result)
  ∧ ((∃ hd st b, reply.1 = Return (web.Response hd st b)) →
     content_length_below result)
  ∧ (content_length_below result →
     ∀ body, aiohttp.read result = Return body →
             reply = (Return (web.Response headers status body), []))
  ∧ (content_length_absent_or_large result →
     reply.2 = web.Prepared status headers content_type
                 :: (web.Wrote <$> aiohttp.content result)
     ∧ ((∀ e, aiohttp.content_error result = Some e →
              is_ClientError e = true) →
        reply.1 = Return (web.StreamResponse status headers content_type))).
Proof.
  intros Hh Hr reply status headers content_type. subst reply.
  rewrite (handle_request_answered _ _ _ _ _ _ Hh Hr).
  split; [apply simple_request_true|]. split; [|split].
  - intros (hd & st & b & Hreply).
    destruct (simple_request result) as [[|]|e] eqn:Hs.
    + by apply simple_request_true.
    + destruct (relay_response_streamed result Hs) as (_ & _ & Hno).
      by destruct (Hno hd st b).
    + by rewrite (relay_response_raises result e Hs) in Hreply.
  - intros Hsmall%simple_request_true body Hbody.
    by apply relay_response_buffered.
  - intros Hlarge%simple_request_false.
    destruct (relay_response_streamed result Hlarge) as (Hlog & Hret & _).
    by split.
Qed.

(** C2 (as amended). When the backend call of a plain HTTP request fails
    before any response is produced, nothing has been written to the
    caller. A failure that is a client error ([aiohttp.ClientError] or a
    subclass of it) leaves the dispatcher as the gateway error, whose
    status is 502; a failure of any other kind leaves it unchanged. *)
Theorem C2_failed_backend_call
    self request addon path source_header e :
  _is_websocket request = false →
  init_header request addon = Return source_header →
  aiohttp.request (_websession self)
    (backend_request self request addon path source_header) = Raise e →
  handle self request addon path
  = (Raise (if is_ClientError e then HTTPBadGateway else e), [])
  ∧ status_code HTTPBadGateway = Some 502.
Proof.
  intros Hws Hh Hr. split; [|done].
  rewrite (handle_plain _ _ _ _ Hws).
  rewrite (handle_request_unanswered _ _ _ _ _ _ Hh Hr).
  by destruct (is_ClientError e).
Qed.

(** C5 (as amended). For a plain HTTP request the backend call targets
    exactly [http://{host}/addons/{addon}/web/{path}]: the raw query
    string is not appended to the URL. The query travels as the parsed
    parameter list [request.query] in the [params] argument, and the
    dispatcher's outcome depends on the session only through its answer to
    this one call. *)
Theorem C5_backend_call_url_and_params
    self request addon path source_header :
  _is_websocket request = false →
  init_header request addon = Return source_header →
  let issued := backend_request self request addon path source_header in
  aiohttp.url issued
  = "http://" +:+ _host self +:+ "/addons/" +:+ addon +:+ "/web/" +:+ path
  ∧ aiohttp.params issued = web.query request
  ∧ ∀ self',
      _host self' = _host self →
      aiohttp.request (_websession self') issued
      = aiohttp.request (_websession self) issued →
      handle self' request addon path = handle self request addon path.
Proof.
  intros Hws Hh issued. split; [done|]. split; [done|].
  intros self' Hhost Hsame.
  rewrite !(handle_plain _ _ _ _ Hws).
  assert (backend_request self' request addon path source_header = issued)
    as Hissued.
  { unfold issued, backend_request, _create_url. by rewrite Hhost. }
  assert (handle_request self' request addon path
          = handle_request self request addon path) as ->; [|done].
  unfold _handle_request. rewrite Hh, !bind_lift_Return.
  fold issued. by rewrite Hissued, Hsame.
Qed.

End forwarder.

(** On the WebSocket path [request.query_string], when not empty, is
    appended after "?". *)
Lemma websocket_url_query self request addon path :
  web.query_string request ≠ "" →
  websocket_url self request addon path
  = _create_url self addon path +:+ "?" +:+ web.query_string request.
Proof.
  intros Hq. unfold websocket_url.
  by rewrite (proj2 (truthy_Some _) Hq).
Qed.

(** C1, witness: a 200 answer with Content-Length 2 is returned buffered. *)
Lemma C1_buffered_witness :
  content_length_below Examples.small_answer
  ∧ _handle_request Examples.X_HASSIO Examples.X_INGRESS_PATH Examples.environ
      (Examples.view (Return Examples.small_answer)) Examples.bare_request
      "core_ssh" "index.html"
    = (Return (web.Response {[ "Server" := "nginx" ]} 200
                            (list_byte_of_string "ok")), []).
Proof.
  assert (content_length_below Examples.small_answer) as Hsmall.
  { exists "2", 2. split; [reflexivity|]. split; reflexivity. }
  split; [exact Hsmall|].
  pose proof (C1_buffered_iff_small_content_length Examples.X_HASSIO
                Examples.X_INGRESS_PATH Examples.environ
                (Examples.view (Return Examples.small_answer))
                Examples.bare_request "core_ssh" "index.html" _
                Examples.small_answer eq_refl eq_refl) as (_ & _ & Hbuf & _).
  exact (Hbuf Hsmall (list_byte_of_string "ok") eq_refl).
Defined.

(** C2, witness: the backend refuses the connection. *)
Lemma C2_failed_backend_call_witness :
  Examples.handle (Raise ClientConnectionError) Examples.bare_request
  = (Raise HTTPBadGateway, []).
Proof.
  exact (proj1 (C2_failed_backend_call Examples.X_HASSIO
                  Examples.X_INGRESS_PATH Examples.environ
                  (Examples.view (Raise ClientConnectionError))
                  Examples.bare_request "core_ssh" "index.html" _
                  ClientConnectionError eq_refl eq_refl eq_refl)).
Defined.

(** C2, counterexample to the claim as stated: the backend call of a
    plain HTTP request runs into its timeout before any response is
    produced. [asyncio.TimeoutError] is not an [aiohttp.ClientError]; the
    dispatcher does not catch it and yields no gateway error. *)
Lemma C2_counterexample_timeout :
  _is_websocket Examples.bare_request = false
  ∧ is_ClientError TimeoutError = false
  ∧ Examples.handle (Raise TimeoutError) Examples.bare_request
    = (Raise TimeoutError, [])
  ∧ (Examples.handle (Raise TimeoutError) Examples.bare_request).1
    ≠ Raise HTTPBadGateway.
Proof.
  split; [reflexivity|]. split; [reflexivity|].
  split; [reflexivity|]. discriminate.
Qed.

(** C5, witness: the call made for [?a] goes to the bare add-on URL. *)
Lemma C5_backend_call_witness :
  ∃ source_header : dict,
    Examples.init_header Examples.query_request_1 "core_ssh"
      = Return source_header
    ∧ let issued :=
        backend_request (Examples.view (Raise ClientConnectionError))
          Examples.query_request_1 "core_ssh" "index.html" source_header in
      aiohttp.url issued = "http://172.30.32.2/addons/core_ssh/web/index.html"
      ∧ aiohttp.params issued = [("a", "")].
Proof.
  eexists. split; [reflexivity|].
  pose proof (C5_backend_call_url_and_params Examples.X_HASSIO
                Examples.X_INGRESS_PATH Examples.environ
                (Examples.view (Raise ClientConnectionError))
                Examples.query_request_1 "core_ssh" "index.html" _
                eq_refl eq_refl) as (Hurl & Hparams & _).
  split; [exact Hurl | exact Hparams].
Defined.

(** C5, counterexample to the claim as stated: the requests for [?a] and
    for [?a=] carry different, non-empty query strings, and the handler
    makes one and the same backend call for both, to the URL without any
    query string. However the target is read off the call, it cannot end
    in the query string of the one request and in that of the other. *)
Lemma C5_counterexample_query_not_verbatim :
  let self := Examples.view (Raise ClientConnectionError) in
  let base := "http://172.30.32.2/addons/core_ssh/web/index.html" in
  web.query_string Examples.query_request_1 = "a"
  ∧ web.query_string Examples.query_request_2 = "a="
  ∧ ∃ h : dict,
      Examples.init_header Examples.query_request_1 "core_ssh" = Return h
      ∧ Examples.init_header Examples.query_request_2 "core_ssh" = Return h
      ∧ let issued request :=
          backend_request self request "core_ssh" "index.html" h in
        issued Examples.query_request_1 = issued Examples.query_request_2
        ∧ aiohttp.url (issued Examples.query_request_1) = base
        ∧ aiohttp.url (issued Examples.query_request_1) ≠ base +:+ "?a"
        ∧ ¬ ∃ target : aiohttp.ClientRequest → string,
              target (issued Examples.query_request_1) = base +:+ "?a"
              ∧ target (issued Examples.query_request_2) = base +:+ "?a=".
Proof.
  simpl. split; [reflexivity|]. split; [reflexivity|].
  eexists. split; [reflexivity|]. split; [reflexivity|].
  split; [reflexivity|]. split; [reflexivity|]. split; [discriminate|].
  intros (target & H1 & H2).
  assert (backend_request (Examples.view (Raise ClientConnectionError))
            Examples.query_request_1 "core_ssh" "index.html"
          = backend_request (Examples.view (Raise ClientConnectionError))
              Examples.query_request_2 "core_ssh" "index.html") as Hsame
    by reflexivity.
  rewrite Hsame in H1. rewrite H1 in H2. discriminate H2.
Qed.

(** ** A malformed Content-Length and the client *)

Lemma digit_of_plain (c : ascii) (d : Z) :
  digit_of c = Some d →
  is_space c = false ∧ c ≠ "-"%char ∧ c ≠ "+"%char.
Proof.
  destruct c as [[] [] [] [] [] [] [] []]; vm_compute; intros Hd;
    try discriminate Hd; repeat split; discriminate.
Qed.

Lemma int_digits_all_digits (s : string) :
  all_digits s = true →
  ∀ acc prev, s ≠ "" ∨ prev = true → is_Some (int_digits s acc prev).
Proof.
  induction s as [|c s IH]; simpl; intros Hd acc prev Hne.
  - destruct Hne as [?| ->]; [done|eauto].
  - apply andb_true_iff in Hd as [[d Hc]%bool_decide_eq_true Hs].
    rewrite Hc. apply IH; [done|by right].
Qed.

(** A Content-Length of digits only is one [int] takes. *)
Lemma int_digits_only (v : string) :
  digits_only v = true → is_Some (Py.int v).
Proof.
  destruct v as [|c v]; [done|]. unfold digits_only. intros Hd.
  assert (is_Some (digit_of c)) as [d Hc].
  { simpl in Hd. by apply andb_true_iff in Hd as [?%bool_decide_eq_true _]. }
  destruct (digit_of_plain c d Hc) as (Hsp & Hminus & Hplus).
  unfold Py.int. simpl lstrip. rewrite Hsp.
  assert (int_signed (String c v) = int_digits (String c v) 0 false) as ->.
  { clear -Hminus Hplus. unfold int_signed.
    destruct c as [[] [] [] [] [] [] [] []]; try reflexivity;
      exfalso; first [by apply Hminus | by apply Hplus]. }
  apply int_digits_all_digits; [done|by left].
Qed.

Section client_checked.
Variables X_HASSIO X_INGRESS_PATH : string.
Variable environ : gmap string string.

(** The parser's test of a Content-Length value lets through only what
    [int] takes. *)
Variable accepts : string → bool.
Hypothesis accepts_int : ∀ v, accepts v = true → is_Some (Py.int v).

Lemma client_receive_inv sent result :
  client_receive accepts sent = Return result →
  result = sent ∧ ∃ simple, simple_request result = Return simple.
Proof.
  unfold client_receive, simple_request.
  destruct (CIMultiDict.get _ _) as [v|] eqn:Hget.
  - destruct (accepts v) eqn:Hv; [|done]. intros [= <-]. split; [done|].
    rewrite (proj2 (contains_get _ _)) by (rewrite Hget; eauto).
    rewrite Hget. simpl. destruct (accepts_int v Hv) as [n ->]. simpl. eauto.
  - intros [= <-]. split; [done|].
    destruct (CIMultiDict.contains _ _) eqn:Hc; [|eauto].
    apply contains_get in Hc as [v Hv]. congruence.
Qed.


End client_checked.



(** ** The WebSocket relay loop *)
Section relay_facts.
Context {S : Type} `{WebSocket S}.

(** C6 (as amended). When a frame arrives and the destination socket has
    already closed, a text, binary, ping or pong frame is still handed to
    [send_str], [send_bytes], [ping] or [pong]; for any other frame the
    loop calls [close] on the destination with the close code recorded on
    the destination socket and the frame's [extra] as the message. In both
    cases the loop then goes on with the frames that follow; it has no
    stop of its own and ends when the source yields no more frames or a
    call raises. *)
Theorem C6_relay_on_closed_destination
    (msg : aiohttp.WSMessage) (rest : list aiohttp.WSMessage) (ws_to : S) :
  closed ws_to = true →
  (other_frame msg →
   forward_one msg ws_to
   = close (close_code ws_to) (aiohttp.extra msg) ws_to)
  ∧ _websocket_forward (msg :: rest) ws_to
    = (match aiohttp.type msg with
       | aiohttp.TEXT => send_str (aiohttp.msg_data msg) ws_to
       | aiohttp.BINARY => send_bytes (aiohttp.msg_data msg) ws_to
       | aiohttp.PING => ping ws_to
       | aiohttp.PONG => pong ws_to
       | _ => close (close_code ws_to) (aiohttp.extra msg) ws_to
       end ≫= _websocket_forward rest).
Proof.
  intros Hclosed. split.
  - unfold other_frame, forward_one. intros Hother.
    destruct (aiohttp.type msg); rewrite ?Hclosed; try done;
      exfalso; apply Hother; listed.
  - simpl. unfold forward_one.
    destruct (aiohttp.type msg); rewrite ?Hclosed; done.
Qed.

(** While the destination is open, frames of the other kinds are
    dropped. *)
Lemma forward_one_open (msg : aiohttp.WSMessage) (ws_to : S) :
  closed ws_to = false → other_frame msg →
  forward_one msg ws_to = Return ws_to.
Proof.
  unfold other_frame, forward_one. intros Hopen Hother.
  destruct (aiohttp.type msg); rewrite ?Hopen; try done;
    exfalso; apply Hother; listed.
Qed.

End relay_facts.

(** On a recording destination every frame of the source is processed:
    the calls recorded are those of all frames, in order. *)
Lemma recorder_processes_every_frame
    (msgs : list aiohttp.WSMessage) (s : Recorder.t) :
  ∃ s' : Recorder.t,
    _websocket_forward msgs s = Return s'
    ∧ Recorder.code s' = Recorder.code s
    ∧ (Recorder.is_closed s = true → Recorder.is_closed s' = true)
    ∧ (Recorder.is_closed s = true →
       Recorder.calls s'
       = (Recorder.calls s
          ++ flat_map (λ m, Recorder.call_for m s) msgs)%list).
Proof.
  revert s. induction msgs as [|m msgs IH]; intros s.
  - exists s. simpl. by rewrite app_nil_r.
  - simpl. unfold forward_one, Recorder.call_for.
    destruct (aiohttp.type m) eqn:Ht; simpl;
      try destruct (Recorder.is_closed s) eqn:Hc; simpl;
      match goal with
      | |- context [_websocket_forward msgs ?s1] =>
          destruct (IH s1) as (s' & Hrun & Hcode & Hcl & Hcalls)
      end; exists s'; simpl in *;
      (split; [done|]); (split; [done|]); (split; [auto|]);
      intros Hc'; try done;
      rewrite Hcalls by done; unfold Recorder.call_for; simpl;
      rewrite <- ?app_assoc; simpl; try done.
Qed.

(** C6, witness: a close frame arrives for a destination that has closed
    with code 1000. *)
Lemma C6_relay_witness :
  closed Examples.closed_socket = true
  ∧ other_frame Examples.close_frame
  ∧ forward_one Examples.close_frame Examples.closed_socket
    = Return {| Recorder.is_closed := true;
                Recorder.code := Some 1000;
                Recorder.calls :=
                  [Recorder.Close (Some 1000) (Some "going away")] |}.
Proof.
  split; [reflexivity|].
  assert (other_frame Examples.close_frame) as Hother.
  { unfold other_frame. simpl. not_listed. }
  split; [exact Hother|].
  destruct (@C6_relay_on_closed_destination Recorder.t Recorder.socket
              Examples.close_frame [] Examples.closed_socket eq_refl)
    as [Hstep _].
  rewrite (Hstep Hother). reflexivity.
Defined.

(** C6, counterexample to the claim as stated: the destination has closed
    with code 1000; a text frame arrives, then a close frame with code
    1001 and the reason "going away", then another text frame. The text
    frame is sent on, not answered with a close; the close call carries
    the destination's own code 1000, not the 1001 of the originating
    side; and the loop does not stop after it: the last frame is
    processed as well. *)
Lemma C6_counterexample_closed_destination :
  closed Examples.closed_socket = true
  ∧ aiohttp.msg_data Examples.close_frame = aiohttp.Code 1001
  ∧ ∃ s' : Recorder.t,
      _websocket_forward
        [Examples.text_frame "late"; Examples.close_frame;
         Examples.text_frame "later"]
        Examples.closed_socket = Return s'
      ∧ Recorder.calls s'
        = [Recorder.SendStr (aiohttp.Str "late");
           Recorder.Close (Some 1000) (Some "going away");
           Recorder.SendStr (aiohttp.Str "later")].
Proof.
  split; [reflexivity|]. split; [reflexivity|].
  eexists. split; reflexivity.
Qed.

(** * Further properties *)

(** ** More on the outbound transform *)
Section outbound_more.
Variables X_HASSIO X_INGRESS_PATH : string.
Variable environ : gmap string string.

#[local] Abbreviation init_header :=
  (_init_header X_HASSIO X_INGRESS_PATH environ).
#[local] Abbreviation entry :=
  (outbound_entry X_HASSIO X_INGRESS_PATH environ).

Lemma or_else_cases (x : option string) fallback :
  or_else x fallback
  = match x with
    | Some (String _ _ as v) => v
    | _ => fallback
    end.
Proof. unfold or_else. by destruct x as [[|c s]|]. Qed.

Lemma forwarded_for_not_empty request ip :
  ip ≠ "" → forwarded_for request ip ≠ "".
Proof.
  unfold forwarded_for. intros Hip.
  by destruct (CIMultiDict.get _ _) as [[|c s]|].
Qed.

(** X2. For a caller whose address resolves, the outbound
    X-Forwarded-Host is the inbound X-Forwarded-Host value when that is
    present and not empty, and the request's Host otherwise; the outbound
    X-Forwarded-Proto is the inbound X-Forwarded-Proto value when present
    and not empty, and the scheme of the request URL otherwise. Neither is
    extended. *)
Theorem X2_forwarded_host_and_proto request addon ip :
  web.connected_ip request = Some ip →
  let inbound := web.headers request in
  ∃ h : dict,
    init_header request addon = Return h
    ∧ h !! hdrs.X_FORWARDED_HOST
      = Some match CIMultiDict.get hdrs.X_FORWARDED_HOST inbound with
             | Some (String _ _ as v) => v
             | _ => web.host request
             end
    ∧ h !! hdrs.X_FORWARDED_PROTO
      = Some match CIMultiDict.get hdrs.X_FORWARDED_PROTO inbound with
             | Some (String _ _ as v) => v
             | _ => web.scheme request
             end.
Proof.
  intros Hip inbound.
  destruct (init_header_returns X_HASSIO X_INGRESS_PATH environ
              request addon ip Hip) as (h & Hh & Hl).
  exists h. split; [done|]. rewrite !Hl. unfold outbound_entry.
  rewrite <- !or_else_cases. split.
  - rewrite bool_decide_eq_false_2 by done.
    by rewrite bool_decide_eq_true_2.
  - by rewrite bool_decide_eq_true_2.
Qed.

(** X3. The names in the outbound dict are the five injected names
    together with the inbound names other than the exact Content-Length
    and Content-Type: the transform drops no other inbound name and
    invents none. *)
Theorem X3_init_header_names request addon (h : dict) :
  init_header request addon = Return h →
  dom h
  = list_to_set (injected_names X_HASSIO X_INGRESS_PATH)
    ∪ (list_to_set (CIMultiDict.items (web.headers request)).*1
       ∖ {[hdrs.CONTENT_LENGTH; hdrs.CONTENT_TYPE]}).
Proof.
  intros (ip & _ & Hl)%init_header_inv.
  apply set_eq. intros name.
  rewrite elem_of_dom, Hl, elem_of_union, elem_of_difference.
  rewrite !elem_of_list_to_set. unfold outbound_entry, injected_names.
  repeat (case_bool_decide;
          [subst name; split; [intros _; left; listed | by eauto]|]).
  destruct (in_tuple name _) eqn:Hex.
  - apply in_tuple_true in Hex. split; [by intros ?%is_Some_None|].
    intros [Hin|[_ Hnot]].
    + exfalso. repeat (apply elem_of_cons in Hin as [->|Hin]; [done|]).
      by apply elem_of_nil in Hin.
    + exfalso. apply Hnot. apply elem_of_union.
      apply elem_of_cons in Hex as [->|Hex]; [left; by apply elem_of_singleton|].
      apply elem_of_cons in Hex as [->|Hex]; [right; by apply elem_of_singleton|].
      by apply elem_of_nil in Hex.
  - apply in_tuple_false in Hex. rewrite last_value_is_Some. split.
    + intros Hin. right. split; [done|].
      intros [->%elem_of_singleton| ->%elem_of_singleton]%elem_of_union;
        apply Hex; listed.
    + intros [Hin|[Hin _]]; [|done].
      exfalso. repeat (apply elem_of_cons in Hin as [->|Hin]; [done|]).
      by apply elem_of_nil in Hin.
Qed.

(** X4. When neither injected name is Content-Length or Content-Type,
    the outbound dict has no entry under the exact names Content-Length
    and Content-Type, whatever the caller sent. *)
Theorem X4_content_headers_never_forwarded request addon (h : dict) :
  X_HASSIO ∉ [hdrs.CONTENT_LENGTH; hdrs.CONTENT_TYPE] →
  X_INGRESS_PATH ∉ [hdrs.CONTENT_LENGTH; hdrs.CONTENT_TYPE] →
  init_header request addon = Return h →
  h !! hdrs.CONTENT_LENGTH = None ∧ h !! hdrs.CONTENT_TYPE = None.
Proof.
  intros Hk Hp (ip & _ & Hl)%init_header_inv.
  rewrite !Hl. unfold outbound_entry.
  split.
  - do 3 (rewrite bool_decide_eq_false_2 by done).
    rewrite bool_decide_eq_false_2 by (intros E; apply Hp; rewrite <- E; listed).
    rewrite bool_decide_eq_false_2 by (intros E; apply Hk; rewrite <- E; listed).
    done.
  - do 3 (rewrite bool_decide_eq_false_2 by done).
    rewrite bool_decide_eq_false_2 by (intros E; apply Hp; rewrite <- E; listed).
    rewrite bool_decide_eq_false_2 by (intros E; apply Hk; rewrite <- E; listed).
    done.
Qed.

(** X5. A header the transform neither excludes nor injects passes
    through untouched: when the caller repeats no header name, the
    outbound dict holds a value under such a name exactly when the caller
    sent that name with that value. *)
Theorem X5_other_headers_pass_through request addon (h : dict) name value :
  init_header request addon = Return h →
  name ∉ injected_names X_HASSIO X_INGRESS_PATH →
  name ∉ [hdrs.CONTENT_LENGTH; hdrs.CONTENT_TYPE] →
  NoDup (CIMultiDict.items (web.headers request)).*1 →
  h !! name = Some value
  ↔ (name, value) ∈ CIMultiDict.items (web.headers request).
Proof.
  intros (ip & _ & Hl)%init_header_inv Hinj Hex Hnd.
  rewrite Hl. unfold outbound_entry.
  repeat (rewrite bool_decide_eq_false_2
            by (intros ->; apply Hinj; unfold injected_names; listed)).
  rewrite (proj2 (in_tuple_false _ _) Hex).
  by apply last_value_NoDup.
Qed.

(** X6. Two hops chain: when a second ingress receives as
    X-Forwarded-For what a first one sent out for a caller at [ip1], it
    sends out that value followed by ", " and the address [ip2] it sees:
    the list of addresses grows at its end, one address per hop. *)
Theorem X6_forwarded_for_chains request1 request2 addon ip1 ip2 (h1 : dict) :
  ip1 ≠ "" →
  web.connected_ip request1 = Some ip1 →
  init_header request1 addon = Return h1 →
  CIMultiDict.get hdrs.X_FORWARDED_FOR (web.headers request2)
  = h1 !! hdrs.X_FORWARDED_FOR →
  web.connected_ip request2 = Some ip2 →
  ∃ h2 : dict,
    init_header request2 addon = Return h2
    ∧ h2 !! hdrs.X_FORWARDED_FOR
      = Some (forwarded_for request1 ip1 +:+ ", " +:+ ip2).
Proof.
  intros Hne Hip1 Hh1 Hget Hip2.
  destruct (init_header_returns X_HASSIO X_INGRESS_PATH environ
              request1 addon ip1 Hip1) as (h1' & Hh1' & Hl1).
  assert (h1' = h1) as -> by congruence.
  destruct (init_header_returns X_HASSIO X_INGRESS_PATH environ
              request2 addon ip2 Hip2) as (h2 & Hh2 & Hl2).
  exists h2. split; [done|].
  assert (∀ request ip,
            entry request addon ip hdrs.X_FORWARDED_FOR
            = Some (forwarded_for request ip)) as Hxff.
  { intros request ip. unfold outbound_entry.
    do 2 (rewrite bool_decide_eq_false_2 by done).
    by rewrite bool_decide_eq_true_2. }
  rewrite Hl1, Hxff in Hget. rewrite Hl2, Hxff.
  unfold forwarded_for at 1. rewrite Hget.
  pose proof (forwarded_for_not_empty request1 ip1 Hne) as Hv.
  by destruct (forwarded_for request1 ip1).
Qed.

End outbound_more.

(** X2, witness: a request that names its forwarded host in lower case. *)
Lemma X2_forwarded_host_and_proto_witness :
  web.connected_ip MoreExamples.proxied_request = Some "5.6.7.8"
  ∧ ∃ h : dict,
      Examples.init_header MoreExamples.proxied_request "core_ssh" = Return h
      ∧ h !! hdrs.X_FORWARDED_HOST = Some "example.org"
      ∧ h !! hdrs.X_FORWARDED_PROTO = Some "https".
Proof.
  split; [reflexivity|].
  exact (X2_forwarded_host_and_proto Examples.X_HASSIO
           Examples.X_INGRESS_PATH Examples.environ
           MoreExamples.proxied_request "core_ssh" "5.6.7.8" eq_refl).
Defined.

(** X3, witness: the names sent out for the proxied request. *)
Lemma X3_init_header_names_witness :
  ∃ h : dict,
    Examples.init_header MoreExamples.proxied_request "core_ssh" = Return h
    ∧ dom h
      = list_to_set
          (injected_names Examples.X_HASSIO Examples.X_INGRESS_PATH)
        ∪ (list_to_set ["x-forwarded-host"; "X-Forwarded-Proto"; "Cookie";
                        "Content-Type"]
           ∖ {[hdrs.CONTENT_LENGTH; hdrs.CONTENT_TYPE]}).
Proof.
  eexists. split; [reflexivity|].
  exact (X3_init_header_names Examples.X_HASSIO Examples.X_INGRESS_PATH
           Examples.environ MoreExamples.proxied_request "core_ssh" _
           eq_refl).
Defined.

(** X4, witness: the Content-Type of the proxied request is not sent on. *)
Lemma X4_content_headers_witness :
  ∃ h : dict,
    Examples.init_header MoreExamples.proxied_request "core_ssh" = Return h
    ∧ h !! hdrs.CONTENT_LENGTH = None ∧ h !! hdrs.CONTENT_TYPE = None.
Proof.
  eexists. split; [reflexivity|].
  apply (X4_content_headers_never_forwarded Examples.X_HASSIO
           Examples.X_INGRESS_PATH Examples.environ
           MoreExamples.proxied_request "core_ssh").
  - vm_compute. not_listed.
  - vm_compute. not_listed.
  - reflexivity.
Defined.

(** X5, witness: the cookie of the proxied request is sent on as it is. *)
Lemma X5_other_headers_witness :
  ∃ h : dict,
    Examples.init_header MoreExamples.proxied_request "core_ssh" = Return h
    ∧ h !! "Cookie" = Some "session=1".
Proof.
  eexists. split; [reflexivity|].
  apply (X5_other_headers_pass_through Examples.X_HASSIO
           Examples.X_INGRESS_PATH Examples.environ
           MoreExamples.proxied_request "core_ssh" _ "Cookie" "session=1").
  - reflexivity.
  - vm_compute. not_listed.
  - vm_compute. not_listed.
  - vm_compute. repeat constructor; not_listed.
  - vm_compute. listed.
Defined.

(** X6, witness: a request relayed by two ingress hops, both reached from
    5.6.7.8. *)
Lemma X6_forwarded_for_chains_witness :
  ∃ h2 : dict,
    Examples.init_header
      (Examples.get_request [("X-Forwarded-For", "5.6.7.8")] "" [])
      "core_ssh" = Return h2
    ∧ h2 !! hdrs.X_FORWARDED_FOR = Some "5.6.7.8, 5.6.7.8".
Proof.
  refine (X6_forwarded_for_chains Examples.X_HASSIO Examples.X_INGRESS_PATH
            Examples.environ Examples.bare_request
            (Examples.get_request [("X-Forwarded-For", "5.6.7.8")] "" [])
            "core_ssh" "5.6.7.8" "5.6.7.8" _ _ eq_refl eq_refl _ eq_refl).
  - discriminate.
  - vm_compute. reflexivity.
Defined.

(** ** Header look-ups ignore the case of names *)

Lemma same_name_trans a b key :
  CIMultiDict.same_name a b = true →
  CIMultiDict.same_name a key = CIMultiDict.same_name b key.
Proof.
  unfold CIMultiDict.same_name. intros Hab%bool_decide_eq_true.
  by rewrite Hab.
Qed.

Lemma get_same_headers key (d d' : CIMultiDict.t) :
  same_headers d d' → CIMultiDict.get key d = CIMultiDict.get key d'.
Proof.
  induction 1 as [|[n v] [n' v'] d d' [Hn Hv] _ IH]; [done|].
  simpl in *. subst v'. rewrite (same_name_trans n n' key Hn).
  by rewrite IH.
Qed.

(** X7. The classifier looks the Connection and Upgrade headers up
    without regard to the case of the header names: two requests whose
    headers differ in the case of names only are classified alike. (The
    values are compared exactly.) *)
Theorem X7_is_websocket_ignores_name_case (request request' : web.Request) :
  same_headers (web.headers request) (web.headers request') →
  _is_websocket request = _is_websocket request'.
Proof.
  intros Hsame. unfold _is_websocket. simpl.
  by rewrite !(get_same_headers _ _ _ Hsame).
Qed.

(** X7, witness: an upgrade request with lower-case header names. *)
Lemma X7_is_websocket_witness :
  _is_websocket MoreExamples.upgrade_request = true.
Proof.
  rewrite (X7_is_websocket_ignores_name_case MoreExamples.upgrade_request
             MoreExamples.upgrade_request_canonical).
  - reflexivity.
  - repeat constructor.
Defined.

(** ** More on the forwarder and the dispatcher *)

Lemma caught_while_streaming e :
  is_ClientError e || is_ClientPayloadError e = is_ClientError e.
Proof. by destruct e. Qed.

Lemma simple_request_raise_inv result e :
  simple_request result = Raise e → e = ValueError.
Proof.
  unfold simple_request. destruct (CIMultiDict.contains _ _); [|done].
  destruct (CIMultiDict.get _ _) as [v|]; simpl; [|done].
  destruct (Py.int v); simpl; [done|]. by intros [= <-].
Qed.

Lemma written_stream status headers content_type (chunks : list bytes) :
  written (web.Prepared status headers content_type
             :: (web.Wrote <$> chunks))
  = concat chunks.
Proof.
  unfold written. simpl.
  induction chunks as [|data rest IH]; simpl; [done|].
  f_equal. exact IH.
Qed.

(** The streamed branch in full: the log, and the outcome by the way the
    body stream ends. *)
Lemma relay_response_streamed_outcome result :
  simple_request result = Return false →
  let reply :=
    web.StreamResponse (aiohttp.status result) (_response_header result)
                       (aiohttp.content_type result) in
  relay_response result
  = (match aiohttp.content_error result with
     | Some e => if is_ClientError e then Return reply else Raise e
     | None => Return reply
     end,
     web.Prepared (aiohttp.status result) (_response_header result)
                  (aiohttp.content_type result)
       :: (web.Wrote <$> aiohttp.content result)).
Proof.
  intros Hs. unfold relay_response. rewrite Hs, bind_lift_Return.
  unfold relay_content. rewrite write_all_log.
  destruct (aiohttp.content_error result) as [e|] eqn:He; simpl.
  - rewrite caught_while_streaming.
    destruct (is_ClientError e); simpl; by rewrite !app_nil_r.
  - by rewrite !app_nil_r.
Qed.

(** A client error leaves the reply to a backend response only from the
    buffered branch, before anything is written. *)
Lemma relay_response_client_error result e :
  (relay_response result).1 = Raise e →
  is_ClientError e = true →
  relay_response result = (Raise e, []).
Proof.
  intros Hr He. destruct (simple_request result) as [[|]|e0] eqn:Hs.
  - destruct (aiohttp.read result) as [body|e1] eqn:Hb.
    + by rewrite (relay_response_buffered result body Hs Hb) in Hr.
    + rewrite (relay_response_buffered_fails result e1 Hs Hb) in Hr |- *.
      simpl in Hr. congruence.
  - rewrite (relay_response_streamed_outcome result Hs) in Hr. simpl in Hr.
    destruct (aiohttp.content_error result) as [e1|]; [|done].
    destruct (is_ClientError e1) eqn:He1; [done|]. congruence.
  - rewrite (relay_response_raises result e0 Hs) in Hr |- *.
    simpl in Hr. congruence.
Qed.

Section dispatcher_more.
Variables X_HASSIO X_INGRESS_PATH : string.
Variable environ : gmap string string.

#[local] Abbreviation init_header :=
  (_init_header X_HASSIO X_INGRESS_PATH environ).
#[local] Abbreviation handle_request :=
  (_handle_request X_HASSIO X_INGRESS_PATH environ).
#[local] Abbreviation handle_websocket :=
  (_handle_websocket X_HASSIO X_INGRESS_PATH environ).
#[local] Abbreviation handle := (_handle X_HASSIO X_INGRESS_PATH environ).

Lemma handle_upgrade self request addon path :
  _is_websocket request = true →
  handle self request addon path
  = match handle_websocket self request addon path with
    | (Raise e, w) =>
        if is_ClientError e then (Raise HTTPBadGateway, w) else (Raise e, w)
    | finished => finished
    end.
Proof.
  intros Hws. unfold _handle. rewrite Hws.
  by destruct (handle_websocket self request addon path) as [[?|?] ?].
Qed.

Lemma handle_websocket_connect self request addon path source_header :
  web.prepare_error request = None →
  init_header request addon = Return source_header →
  handle_websocket self request addon path
  = match aiohttp.ws_connect (_websession self)
            (websocket_url self request addon path) source_header with
    | Return _ =>
        (Return web.WebSocketResponse, [web.WsPrepared; web.Relayed])
    | Raise e => (Raise e, [web.WsPrepared])
    end.
Proof.
  intros Hp Hh. unfold _handle_websocket, prepare. rewrite Hp, Hh.
  unfold emit, lift, mbind, IO_bind. simpl.
  by destruct (aiohttp.ws_connect _ _ _).
Qed.

(** X9. No client error leaves the dispatcher: whatever it raises is not
    an [aiohttp.ClientError], on the HTTP path and on the WebSocket path
    alike. *)
Theorem X9_handle_raises_no_client_error self request addon path e :
  (handle self request addon path).1 = Raise e →
  is_ClientError e = false.
Proof.
  unfold _handle.
  destruct (if _is_websocket request then _ else _) as [[reply|e0] w];
    simpl; [done|].
  destruct (is_ClientError e0) eqn:He0; simpl; intros [= <-]; done.
Qed.


(** X11. On the HTTP path a client error reaches the dispatcher only
    before anything is written to the caller (from the backend call or
    from reading a buffered body), so every gateway error made of one
    comes with an empty log: a 502 is never raised into a reply that has
    begun. *)
Theorem X11_gateway_error_before_any_write self request addon path e :
  _is_websocket request = false →
  (handle_request self request addon path).1 = Raise e →
  is_ClientError e = true →
  handle self request addon path = (Raise HTTPBadGateway, []).
Proof.
  intros Hws Hr He.
  assert (handle_request self request addon path = (Raise e, [])) as Hout.
  { unfold _handle_request in Hr |- *.
    destruct (init_header request addon) as [h|e0] eqn:Hh.
    - rewrite bind_lift_Return in Hr |- *.
      destruct (aiohttp.request _ _) as [result|e1] eqn:Hreq.
      + rewrite bind_lift_Return in Hr |- *.
        by apply relay_response_client_error.
      + rewrite bind_lift_Raise in Hr |- *. simpl in Hr. congruence.
    - rewrite bind_lift_Raise in Hr |- *. simpl in Hr. congruence. }
  rewrite (handle_plain _ _ _ _ _ _ _ Hws), Hout. by rewrite He.
Qed.

(** X12. When the body stream of a streamed reply breaks with a client
    error, the dispatcher does not raise: it returns the streamed reply,
    and the caller has received the reply head and every chunk that came
    before the break. *)
Theorem X12_broken_stream_is_truncated
    self request addon path source_header result e :
  _is_websocket request = false →
  init_header request addon = Return source_header →
  aiohttp.request (_websession self)
    (backend_request self request addon path source_header) = Return result →
  content_length_absent_or_large result →
  aiohttp.content_error result = Some e →
  is_ClientError e = true →
  handle self request addon path
  = (Return (web.StreamResponse (aiohttp.status result)
               (_response_header result) (aiohttp.content_type result)),
     web.Prepared (aiohttp.status result) (_response_header result)
                  (aiohttp.content_type result)
       :: (web.Wrote <$> aiohttp.content result)).
Proof.
  intros Hws Hh Hreq Hlarge%simple_request_false Herr He.
  rewrite (handle_plain _ _ _ _ _ _ _ Hws).
  rewrite (handle_request_answered _ _ _ _ _ _ _ _ _ Hh Hreq).
  rewrite (relay_response_streamed_outcome result Hlarge).
  by rewrite Herr, He.
Qed.

(** X13. The bytes the forwarder itself writes for a response are, for a
    streamed reply, the chunks of the backend body in their order (the
    whole body when the stream ends well), and none for a buffered
    reply. *)
Theorem X13_written_bytes_are_the_body
    self request addon path source_header result :
  init_header request addon = Return source_header →
  aiohttp.request (_websession self)
    (backend_request self request addon path source_header) = Return result →
  let log := (handle_request self request addon path).2 in
  (content_length_absent_or_large result →
   written log = concat (aiohttp.content result)
   ∧ (aiohttp.content_error result = None →
      aiohttp.read result = Return (written log)))
  ∧ (content_length_below result → log = []).
Proof.
  intros Hh Hreq log. subst log.
  rewrite (handle_request_answered _ _ _ _ _ _ _ _ _ Hh Hreq).
  split.
  - intros Hlarge%simple_request_false.
    rewrite (relay_response_streamed_outcome result Hlarge). cbn [snd].
    rewrite written_stream. split; [done|].
    intros Herr. unfold aiohttp.read. by rewrite Herr.
  - intros Hsmall%simple_request_true.
    destruct (aiohttp.read result) as [body|e] eqn:Hb.
    + by rewrite (relay_response_buffered result body Hsmall Hb).
    + by rewrite (relay_response_buffered_fails result e Hsmall Hb).
Qed.

(** X14. On the WebSocket path the handshake with the caller comes
    first. When the framework accepts the handshake and the connect to
    the backend then fails with a client error, the dispatcher raises the
    gateway error although the caller's socket is already open. *)
Theorem X14_websocket_connect_failure
    self request addon path source_header e :
  _is_websocket request = true →
  web.prepare_error request = None →
  init_header request addon = Return source_header →
  aiohttp.ws_connect (_websession self)
    (websocket_url self request addon path) source_header = Raise e →
  is_ClientError e = true →
  handle self request addon path = (Raise HTTPBadGateway, [web.WsPrepared]).
Proof.
  intros Hws Hp Hh Hc He.
  rewrite (handle_upgrade _ _ _ _ Hws).
  rewrite (handle_websocket_connect _ _ _ _ _ Hp Hh), Hc. by rewrite He.
Qed.

End dispatcher_more.

(** X9, witness: a refused connection leaves as the gateway error. *)
Lemma X9_handle_raises_witness :
  (Examples.handle (Raise ClientConnectionError) Examples.bare_request).1
  = Raise HTTPBadGateway
  ∧ is_ClientError HTTPBadGateway = false.
Proof.
  split; [reflexivity|].
  exact (X9_handle_raises_no_client_error Examples.X_HASSIO
           Examples.X_INGRESS_PATH Examples.environ
           (Examples.view (Raise ClientConnectionError))
           Examples.bare_request "core_ssh" "index.html" HTTPBadGateway
           eq_refl).
Defined.


(** X11, witness: the backend announces ten bytes and breaks while they
    are read. *)
Lemma X11_gateway_error_witness :
  Examples.handle (Return MoreExamples.broken_small_answer)
    Examples.bare_request
  = (Raise HTTPBadGateway, []).
Proof.
  exact (X11_gateway_error_before_any_write Examples.X_HASSIO
           Examples.X_INGRESS_PATH Examples.environ
           (Examples.view (Return MoreExamples.broken_small_answer))
           Examples.bare_request "core_ssh" "index.html" ClientPayloadError
           eq_refl eq_refl eq_refl).
Defined.

(** X12, witness: a stream that breaks after two chunks. *)
Lemma X12_broken_stream_witness :
  content_length_absent_or_large MoreExamples.broken_stream
  ∧ Examples.handle (Return MoreExamples.broken_stream) Examples.bare_request
    = (Return (web.StreamResponse 200 {[ "Server" := "nginx" ]} "text/html"),
       [web.Prepared 200 {[ "Server" := "nginx" ]} "text/html";
        web.Wrote (list_byte_of_string "<html>");
        web.Wrote (list_byte_of_string "<body>")]).
Proof.
  assert (content_length_absent_or_large MoreExamples.broken_stream)
    as Hlarge by (left; reflexivity).
  split; [exact Hlarge|].
  exact (X12_broken_stream_is_truncated Examples.X_HASSIO
           Examples.X_INGRESS_PATH Examples.environ
           (Examples.view (Return MoreExamples.broken_stream))
           Examples.bare_request "core_ssh" "index.html" _
           MoreExamples.broken_stream ClientPayloadError
           eq_refl eq_refl eq_refl Hlarge eq_refl eq_refl).
Defined.

(** X13, witness: a stream of two chunks that ends well. *)
Lemma X13_written_bytes_witness :
  content_length_absent_or_large MoreExamples.whole_stream
  ∧ written
      (_handle_request Examples.X_HASSIO Examples.X_INGRESS_PATH
         Examples.environ (Examples.view (Return MoreExamples.whole_stream))
         Examples.bare_request "core_ssh" "index.html").2
    = list_byte_of_string "<html></html>".
Proof.
  assert (content_length_absent_or_large MoreExamples.whole_stream)
    as Hlarge by (left; reflexivity).
  split; [exact Hlarge|].
  destruct (X13_written_bytes_are_the_body Examples.X_HASSIO
              Examples.X_INGRESS_PATH Examples.environ
              (Examples.view (Return MoreExamples.whole_stream))
              Examples.bare_request "core_ssh" "index.html" _
              MoreExamples.whole_stream eq_refl eq_refl) as [Hstream _].
  exact (proj1 (Hstream Hlarge)).
Defined.

(** X14, witness: an upgrade request with a full handshake while the
    backend is down. *)
Lemma X14_websocket_connect_failure_witness :
  _handle Examples.X_HASSIO Examples.X_INGRESS_PATH Examples.environ
    (MoreExamples.ws_view (Raise ClientConnectionError))
    MoreExamples.websocket_request "core_ssh" "ws"
  = (Raise HTTPBadGateway, [web.WsPrepared]).
Proof.
  exact (X14_websocket_connect_failure Examples.X_HASSIO
           Examples.X_INGRESS_PATH Examples.environ
           (MoreExamples.ws_view (Raise ClientConnectionError))
           MoreExamples.websocket_request "core_ssh" "ws" _
           ClientConnectionError eq_refl eq_refl eq_refl eq_refl eq_refl).
Defined.

(** ** The backend URLs *)

Lemma append_cancel (s a b : string) : s +:+ a = s +:+ b → a = b.
Proof. induction s as [|c s IH]; simpl; [done|]. intros [= E]. auto. Qed.

(** A string without "/" ends where the first "/" stands. *)
Lemma slash_split (a a' r r' : string) :
  slash_free a = true → slash_free a' = true →
  a +:+ String "/" r = a' +:+ String "/" r' →
  a = a' ∧ r = r'.
Proof.
  revert a'. induction a as [|c a IH]; intros [|c' a'] Ha Ha' E;
    simpl in *.
  - by injection E.
  - injection E as <- _. done.
  - injection E as -> _. done.
  - injection E as -> E.
    apply andb_true_iff in Ha as [_ Ha]. apply andb_true_iff in Ha' as [_ Ha'].
    destruct (IH a' Ha Ha' E) as [-> ->]. done.
Qed.

(** X17. Requests for different add-ons or different paths never share a
    backend URL: for add-on names without "/", as the route matches them,
    the URL determines the add-on and the path. *)
Theorem X17_create_url_injective self addon addon' path path' :
  slash_free addon = true → slash_free addon' = true →
  _create_url self addon path = _create_url self addon' path' →
  addon = addon' ∧ path = path'.
Proof.
  intros Ha Ha'. unfold _create_url.
  intros E%append_cancel%append_cancel%append_cancel.
  change ("/web/" +:+ path) with (String "/" ("web/" +:+ path)) in E.
  change ("/web/" +:+ path') with (String "/" ("web/" +:+ path')) in E.
  destruct (slash_split _ _ _ _ Ha Ha' E) as [-> Hp].
  by apply append_cancel in Hp as ->.
Qed.

(** X17, witness: two add-ons, the same path. *)
Lemma X17_create_url_witness :
  _create_url (Examples.view (Raise ClientConnectionError))
    "core_ssh" "index.html"
  ≠ _create_url (Examples.view (Raise ClientConnectionError))
      "core_samba" "index.html".
Proof.
  intros E.
  destruct (X17_create_url_injective _ "core_ssh" "core_samba"
              "index.html" "index.html" eq_refl eq_refl E) as [Ha _].
  discriminate Ha.
Defined.

(** Without the restriction the URL does not tell add-on and path
    apart. *)
Example create_url_needs_slash_free :
  _create_url (Examples.view (Raise ClientConnectionError)) "a/web/b" "c"
  = _create_url (Examples.view (Raise ClientConnectionError)) "a" "b/web/c".
Proof. reflexivity. Qed.

(** ** More on the relay loop *)
Section relay_more.
Context {S : Type} `{WebSocket S}.

Lemma websocket_forward_app (first rest : list aiohttp.WSMessage) (ws_to : S) :
  _websocket_forward (first ++ rest)%list ws_to
  = (_websocket_forward first ws_to ≫= _websocket_forward rest).
Proof.
  revert ws_to. induction first as [|msg first IH]; intros ws_to; simpl.
  - done.
  - destruct (forward_one msg ws_to) as [ws_to'|e]; simpl; [apply IH|done].
Qed.

(** X19. The loop ends at the first call on the destination that raises:
    it raises the same exception and hands no later frame on, whatever
    follows in the source. *)
Theorem X19_relay_stops_at_first_failure
    (before after : list aiohttp.WSMessage) msg (ws_to ws_to' : S) e :
  _websocket_forward before ws_to = Return ws_to' →
  forward_one msg ws_to' = Raise e →
  _websocket_forward (before ++ msg :: after)%list ws_to = Raise e.
Proof.
  intros Hbefore Hmsg.
  rewrite websocket_forward_app, Hbefore. simpl. by rewrite Hmsg.
Qed.

End relay_more.

(** X19, witness: a destination whose transport fails on the first
    write. *)
Lemma X19_relay_stops_witness :
  _websocket_forward
    [MoreExamples.error_frame; Examples.text_frame "one";
     Examples.text_frame "two"]
    MoreExamples.broken
  = Raise ClientConnectionError.
Proof.
  exact (@X19_relay_stops_at_first_failure MoreExamples.Broken
           MoreExamples.broken_socket [MoreExamples.error_frame]
           [Examples.text_frame "two"] (Examples.text_frame "one")
           MoreExamples.broken MoreExamples.broken ClientConnectionError
           eq_refl eq_refl).
Defined.

(** One frame on a recording destination: the call it leads to is
    recorded, and neither [closed] nor [close_code] changes. *)
Lemma recorder_step (msg : aiohttp.WSMessage) (s : Recorder.t) :
  ∃ s1 : Recorder.t,
    forward_one msg s = Return s1
    ∧ Recorder.code s1 = Recorder.code s
    ∧ Recorder.is_closed s1 = Recorder.is_closed s
    ∧ Recorder.calls s1 = (Recorder.calls s ++ Recorder.call_for msg s)%list.
Proof.
  unfold forward_one, Recorder.call_for.
  destruct (aiohttp.type msg); simpl;
    try (destruct (Recorder.is_closed s) eqn:Hc; simpl);
    eexists; (split; [reflexivity|]); simpl;
    rewrite ?app_nil_r; by destruct s.
Qed.

Lemma recorder_call_for_ext (msg : aiohttp.WSMessage) (s s1 : Recorder.t) :
  Recorder.code s1 = Recorder.code s →
  Recorder.is_closed s1 = Recorder.is_closed s →
  Recorder.call_for msg s1 = Recorder.call_for msg s.
Proof. unfold Recorder.call_for. by intros -> ->. Qed.

Lemma recorder_run (msgs : list aiohttp.WSMessage) (s : Recorder.t) :
  ∃ s' : Recorder.t,
    _websocket_forward msgs s = Return s'
    ∧ Recorder.code s' = Recorder.code s
    ∧ Recorder.is_closed s' = Recorder.is_closed s
    ∧ Recorder.calls s'
      = (Recorder.calls s
         ++ flat_map (λ m, Recorder.call_for m s) msgs)%list.
Proof.
  revert s. induction msgs as [|m msgs IH]; intros s; simpl.
  - exists s. by rewrite app_nil_r.
  - destruct (recorder_step m s) as (s1 & Hstep & Hcode & Hcl & Hcalls).
    rewrite Hstep. simpl.
    destruct (IH s1) as (s' & Hrun & Hcode' & Hcl' & Hcalls').
    exists s'. split; [done|]. split; [congruence|]. split; [congruence|].
    rewrite Hcalls', Hcalls, <- app_assoc. f_equal. f_equal.
    apply flat_map_ext. intros m'.
    by apply recorder_call_for_ext.
Qed.

(** X20. On a destination that is open, the loop passes every text,
    binary, ping and pong frame on in the order of arrival (text and
    binary with their payload), drops every other frame, always returns,
    and never calls [close]: the destination is still open afterwards. *)
Theorem X20_relay_to_open_destination
    (msgs : list aiohttp.WSMessage) (s : Recorder.t) :
  Recorder.is_closed s = false →
  ∃ s' : Recorder.t,
    _websocket_forward msgs s = Return s'
    ∧ Recorder.is_closed s' = false
    ∧ Recorder.calls s'
      = (Recorder.calls s
         ++ flat_map (λ m, match aiohttp.type m with
                           | aiohttp.TEXT =>
                               [Recorder.SendStr (aiohttp.msg_data m)]
                           | aiohttp.BINARY =>
                               [Recorder.SendBytes (aiohttp.msg_data m)]
                           | aiohttp.PING => [Recorder.Ping]
                           | aiohttp.PONG => [Recorder.Pong]
                           | _ => []
                           end) msgs)%list.
Proof.
  intros Hopen.
  destruct (recorder_run msgs s) as (s' & Hrun & _ & Hcl & Hcalls).
  exists s'. split; [done|]. split; [congruence|].
  rewrite Hcalls. f_equal. apply flat_map_ext. intros m.
  unfold Recorder.call_for. rewrite Hopen. by destruct (aiohttp.type m).
Qed.

(** X20, witness: four frames for an open destination. *)
Lemma X20_relay_to_open_destination_witness :
  ∃ s' : Recorder.t,
    _websocket_forward
      [Examples.text_frame "hello"; Examples.close_frame;
       MoreExamples.ping_frame; MoreExamples.binary_frame "raw"]
      MoreExamples.open_socket = Return s'
    ∧ Recorder.is_closed s' = false
    ∧ Recorder.calls s'
      = [Recorder.SendStr (aiohttp.Str "hello"); Recorder.Ping;
         Recorder.SendBytes (aiohttp.Bytes (list_byte_of_string "raw"))].
Proof.
  exact (X20_relay_to_open_destination
           [Examples.text_frame "hello"; Examples.close_frame;
            MoreExamples.ping_frame; MoreExamples.binary_frame "raw"]
           MoreExamples.open_socket eq_refl).
Defined.

(** ** Composition of the header transforms *)

(** The pairs of a dict, listed, carry under each name what the dict
    holds. *)
Lemma last_value_map_to_list (m : dict) (name : string) :
  last_value name (map_to_list m) = m !! name.
Proof.
  destruct (m !! name) as [v|] eqn:Hm.
  - apply last_value_NoDup; [apply NoDup_fst_map_to_list|].
    by apply elem_of_map_to_list.
  - apply last_value_None.
    intros ([k v] & -> & Hin%elem_of_map_to_list)%list_elem_of_fmap.
    simpl in Hm. congruence.
Qed.

(** X21. The response transform is idempotent: a response whose headers
    are those a first pass produced (in any order of listing the dict)
    passes a second time unchanged. *)
Theorem X21_response_header_idempotent
    (response response' : aiohttp.ClientResponse) :
  aiohttp.resp_headers response' = map_to_list (_response_header response) →
  _response_header response' = _response_header response.
Proof.
  intros Hh. apply map_eq. intros name.
  unfold _response_header at 1. rewrite Hh, copy_headers_lookup.
  unfold CIMultiDict.items. rewrite last_value_map_to_list.
  destruct (in_tuple name _) eqn:Hex; [|done].
  unfold _response_header. by rewrite copy_headers_lookup, Hex.
Qed.

(** X21, witness: the headers left of the small answer, passed again. *)
Lemma X21_response_header_idempotent_witness :
  _response_header (Examples.answer [("Server", "nginx")] "ok")
  = _response_header Examples.small_answer.
Proof.
  apply X21_response_header_idempotent.
  vm_compute. reflexivity.
Defined.

Section forwarded_case.
Variables X_HASSIO X_INGRESS_PATH : string.
Variable environ : gmap string string.

(** X22. The three X-Forwarded entries of the outbound dict are found
    without regard to the case of the inbound names: two requests from
    the same peer, for the same host and scheme, whose headers differ in
    the case of names only, get the same X-Forwarded-For,
    X-Forwarded-Host and X-Forwarded-Proto entries. *)
Theorem X22_forwarded_entries_ignore_name_case
    (request request' : web.Request) addon (h h' : dict) :
  same_headers (web.headers request) (web.headers request') →
  web.connected_ip request = web.connected_ip request' →
  web.host request = web.host request' →
  web.scheme request = web.scheme request' →
  _init_header X_HASSIO X_INGRESS_PATH environ request addon = Return h →
  _init_header X_HASSIO X_INGRESS_PATH environ request' addon = Return h' →
  h !! hdrs.X_FORWARDED_FOR = h' !! hdrs.X_FORWARDED_FOR
  ∧ h !! hdrs.X_FORWARDED_HOST = h' !! hdrs.X_FORWARDED_HOST
  ∧ h !! hdrs.X_FORWARDED_PROTO = h' !! hdrs.X_FORWARDED_PROTO.
Proof.
  intros Hsame Hip Hhost Hscheme
         (ip & Hip1 & Hl)%init_header_inv (ip' & Hip2 & Hl')%init_header_inv.
  assert (ip' = ip) as -> by congruence.
  rewrite !Hl, !Hl'. unfold outbound_entry, forwarded_for.
  rewrite !(get_same_headers _ _ _ Hsame), Hhost, Hscheme.
  by repeat split.
Qed.

End forwarded_case.

(** X22, witness: [x-forwarded-host] in lower case and in its canonical
    form. *)
Lemma X22_forwarded_entries_witness :
  ∃ h h' : dict,
    Examples.init_header MoreExamples.proxied_request "core_ssh" = Return h
    ∧ Examples.init_header
        (Examples.get_request
           [("X-Forwarded-Host", "example.org");
            ("x-forwarded-proto", "https"); ("cookie", "session=1");
            ("content-type", "text/plain")] "" [])
        "core_ssh" = Return h'
    ∧ h !! hdrs.X_FORWARDED_HOST = h' !! hdrs.X_FORWARDED_HOST.
Proof.
  pose (request' :=
          Examples.get_request
            [("X-Forwarded-Host", "example.org");
             ("x-forwarded-proto", "https"); ("cookie", "session=1");
             ("content-type", "text/plain")] "" []).
  destruct (init_header_returns Examples.X_HASSIO Examples.X_INGRESS_PATH
              Examples.environ MoreExamples.proxied_request "core_ssh"
              "5.6.7.8" eq_refl) as (h & Hh & _).
  destruct (init_header_returns Examples.X_HASSIO Examples.X_INGRESS_PATH
              Examples.environ request' "core_ssh" "5.6.7.8" eq_refl)
    as (h' & Hh' & _).
  exists h, h'. split; [exact Hh|]. split; [exact Hh'|].
  assert (same_headers (web.headers MoreExamples.proxied_request)
            (web.headers request')) as Hsame by repeat constructor.
  exact (proj1 (proj2 (X22_forwarded_entries_ignore_name_case
            Examples.X_HASSIO Examples.X_INGRESS_PATH Examples.environ
            MoreExamples.proxied_request request' "core_ssh" h h' Hsame
            eq_refl eq_refl eq_refl Hh Hh'))).
Defined.
